(** * Federation reservation core of the flvx panel: a shallow embedding

    The development follows the layout of the repository.

    Definitions:
    - [Text]: the string helpers of the Java and Go code (blank tests,
      trimming, ASCII case folding) and a small regular-expression matcher
      for the one pattern the Java code compiles;
    - [SQLiteConfig]: [springboot-backend/.../config/SQLiteConfig.java], the
      additive dual-stack migration that runs when the store is opened;
    - [Store]: the tables behind [h.repo];
    - [Handler]: [go-backend/internal/http/handler/handler.go], the flow
      upload endpoint;
    - [Federation] and [ForwardControl]: the peer-share port picker and the
      service names of the forward control commands.  Their Go bodies are
      not among the sources (their tests are), so they are written from
      the specification and pinned to the tests.

    Facts: one module per definition module, in the same order. *)

From Stdlib Require Import ZArith List String Ascii Bool Lia.
Import ListNotations.

Local Open Scope string_scope.
Local Open Scope bool_scope.
Local Open Scope Z_scope.

(* ===================================================================== *)
(** * Text helpers *)
(* ===================================================================== *)

Module Text.

Definition code (c : ascii) : Z := Z.of_N (N_of_ascii c).

Fixpoint forallS (p : ascii -> bool) (s : string) : bool :=
  match s with
  | EmptyString => true
  | String c s' => p c && forallS p s'
  end.

Fixpoint countS (p : ascii -> bool) (s : string) : Z :=
  match s with
  | EmptyString => 0
  | String c s' => (if p c then 1 else 0) + countS p s'
  end.

Fixpoint dropWhile (p : ascii -> bool) (s : string) : string :=
  match s with
  | EmptyString => EmptyString
  | String c s' => if p c then dropWhile p s' else s
  end.

Fixpoint revOnto (s acc : string) : string :=
  match s with
  | EmptyString => acc
  | String c s' => revOnto s' (String c acc)
  end.

Definition rev (s : string) : string := revOnto s EmptyString.

(** Strip the characters satisfying [p] from both ends. *)
Definition strip (p : ascii -> bool) (s : string) : string :=
  rev (dropWhile p (rev (dropWhile p s))).

(** [Character.isWhitespace] on the Latin-1 range: TAB, LF, VT, FF, CR,
    the four separators U+001C..U+001F and SPACE.  NBSP (U+00A0) and NEL
    (U+0085) are not Java whitespace. *)
Definition isWhitespace (c : ascii) : bool :=
  let n := code c in
  ((9 <=? n) && (n <=? 13)) || ((28 <=? n) && (n <=? 31)) || (n =? 32).

(** [String.isBlank]: empty, or white space only. *)
Definition isBlank (s : string) : bool := forallS isWhitespace s.

(** [String.trim]: drops leading and trailing characters whose code is at
    most U+0020. *)
Definition trim (s : string) : string := strip (fun c => code c <=? 32) s.

Definition isColon (c : ascii) : bool := code c =? 58.

(** ASCII case folding, as used to compare SQL identifiers and command
    names. *)
Definition lowerChar (c : ascii) : ascii :=
  let n := code c in
  if (65 <=? n) && (n <=? 90) then ascii_of_N (Z.to_N (n + 32)) else c.

Fixpoint lower (s : string) : string :=
  match s with
  | EmptyString => EmptyString
  | String c s' => String (lowerChar c) (lower s')
  end.

Definition eqbFold (a b : string) : bool := String.eqb (lower a) (lower b).

Definition elem (x : string) (l : list string) : bool :=
  existsb (String.eqb x) l.

Definition elemFold (x : string) (l : list string) : bool :=
  existsb (eqbFold x) l.

(** ** Regular expressions

    Enough of [java.util.regex] for a pattern built from literals,
    character classes, concatenation, alternation and [?].  [matches] is
    [Matcher.matches()]: the whole input has to be in the language, which
    for this fragment is what the backtracking matcher decides. *)

Inductive regex : Type :=
| ReNone
| ReEps
| ReSet (p : ascii -> bool)
| ReCat (r s : regex)
| ReAlt (r s : regex)
| ReOpt (r : regex).

Fixpoint nullable (r : regex) : bool :=
  match r with
  | ReNone => false
  | ReEps => true
  | ReSet _ => false
  | ReCat r s => nullable r && nullable s
  | ReAlt r s => nullable r || nullable s
  | ReOpt _ => true
  end.

Definition cat (r s : regex) : regex :=
  match r, s with
  | ReNone, _ => ReNone
  | _, ReNone => ReNone
  | ReEps, _ => s
  | _, _ => ReCat r s
  end.

Definition alt (r s : regex) : regex :=
  match r, s with
  | ReNone, _ => s
  | _, ReNone => r
  | _, _ => ReAlt r s
  end.

Fixpoint deriv (c : ascii) (r : regex) : regex :=
  match r with
  | ReNone => ReNone
  | ReEps => ReNone
  | ReSet p => if p c then ReEps else ReNone
  | ReCat r s =>
      alt (cat (deriv c r) s) (if nullable r then deriv c s else ReNone)
  | ReAlt r s => alt (deriv c r) (deriv c s)
  | ReOpt r => deriv c r
  end.

Fixpoint matches (r : regex) (s : string) : bool :=
  match s with
  | EmptyString => nullable r
  | String c s' => matches (deriv c r) s'
  end.

Definition lit (c : ascii) : regex := ReSet (Ascii.eqb c).

Definition range (lo hi : ascii) : regex :=
  ReSet (fun c => (code lo <=? code c) && (code c <=? code hi)).

Fixpoint seqRe (l : list regex) : regex :=
  match l with
  | [] => ReEps
  | [r] => r
  | r :: l' => ReCat r (seqRe l')
  end.

End Text.


(* ===================================================================== *)
(** * SQLiteConfig.java: the dual-stack migration of the node table *)
(* ===================================================================== *)

Module SQLiteConfig.

Import Text.

(** Pattern.compile("^(25[0-5]|2[0-4][0-9]|[01]?[0-9][0-9]?)\\.( ... ){3}$"),
    written out group by group. *)
Definition octet : regex :=
  ReAlt (seqRe [lit "2"; lit "5"; range "0" "5"])
    (ReAlt (seqRe [lit "2"; range "0" "4"; range "0" "9"])
       (seqRe [ReOpt (range "0" "1"); range "0" "9"; ReOpt (range "0" "9")])).

Definition ipv4 : regex :=
  seqRe [octet; lit "."; octet; lit "."; octet; lit "."; octet].

(** One row of [node], restricted to the columns the migration reads and
    writes; [None] is SQL NULL.  [id] is the table's integer key. *)
Record NodeRow : Type := mkNodeRow {
  id : Z;
  server_ip : option string;
  server_ip_v4 : option string;
  server_ip_v6 : option string
}.

(** The [node] table as the connection sees it: the declared column names
    (what PRAGMA table_info lists) and the rows.  A table that does not
    exist has no column.  A column that is not declared yet reads as NULL in
    every row, which is also what ALTER TABLE ... ADD COLUMN leaves. *)
Record NodeTable : Type := mkNodeTable {
  columns : list string;
  rows : list NodeRow
}.

(** A JDBC call either returns or throws SQLException; the table keeps the
    statements executed before the throw (there is no transaction). *)
Inductive outcome : Type :=
| Returned
| Thrown.

Definition Conn : Type := NodeTable -> NodeTable * outcome.

Definition andThen (c1 c2 : Conn) : Conn :=
  fun t =>
    match c1 t with
    | (t1, Returned) => c2 t1
    | (t1, Thrown) => (t1, Thrown)
    end.

(** getTableColumns: the non-null, non-blank names of PRAGMA table_info,
    collected in a HashSet (membership is all the callers use). *)
Definition getTableColumns (t : NodeTable) : list string :=
  filter (fun name => negb (isBlank name)) (columns t).

(** ALTER TABLE node ADD COLUMN c: SQLite compares column names without
    regard to ASCII case and refuses a duplicate. *)
Definition alterTableAddColumn (column : string) : Conn :=
  fun t =>
    if elemFold column (columns t) then (t, Thrown)
    else (mkNodeTable (columns t ++ [column]) (rows t), Returned).

Definition ensureColumnIfMissing (existingColumns : list string)
    (column : string) : Conn :=
  fun t =>
    if elem column existingColumns then (t, Returned)
    else alterTableAddColumn column t.

(** [v != null && !v.isBlank()]. *)
Definition notBlank (v : option string) : bool :=
  match v with
  | None => false
  | Some s => negb (isBlank s)
  end.

(** The statement one pass of the while loop executes for the row it reads. *)
Inductive update : Type :=
| NoUpdate
| UpdV4 (value : string)
| UpdV6 (value : string).

Definition rowUpdate (r : NodeRow) : update :=
  match server_ip r with
  | None => NoUpdate
  | Some serverIp =>
      if isBlank serverIp then NoUpdate
      else if notBlank (server_ip_v4 r) || notBlank (server_ip_v6 r)
      then NoUpdate
      else
        let trimmed := trim serverIp in
        if matches ipv4 trimmed then UpdV4 trimmed
        else if 2 <=? countS isColon trimmed then UpdV6 trimmed
        else NoUpdate
  end.

(** UPDATE node SET server_ip_v4 = ? WHERE id = ? (and the v6 twin), on one
    stored row. *)
Definition applyUpdate (u : update) (key : Z) (r : NodeRow) : NodeRow :=
  if id r =? key then
    match u with
    | NoUpdate => r
    | UpdV4 v => mkNodeRow (id r) (server_ip r) (Some v) (server_ip_v6 r)
    | UpdV6 v => mkNodeRow (id r) (server_ip r) (server_ip_v4 r) (Some v)
    end
  else r.

Definition loopStep (stored : list NodeRow) (read : NodeRow) : list NodeRow :=
  map (applyUpdate (rowUpdate read) (id read)) stored.

(** SELECT id, server_ip, server_ip_v4, server_ip_v6 FROM node needs the four
    columns. *)
Definition selectColumns : list string :=
  ["id"; "server_ip"; "server_ip_v4"; "server_ip_v6"].

Definition selectable (t : NodeTable) : bool :=
  forallb (fun c => elemFold c (columns t)) selectColumns.

(** backfillNodeDualStackColumns: the result set is the rows as the SELECT
    found them; each pass issues at most one UPDATE by id. *)
Definition backfillNodeDualStackColumns : Conn :=
  fun t =>
    if selectable t
    then (mkNodeTable (columns t) (fold_left loopStep (rows t) (rows t)),
          Returned)
    else (t, Thrown).

Definition ensureNodeDualStackColumns : Conn :=
  fun t =>
    let cols := getTableColumns t in
    match cols with
    | [] => (t, Returned)
    | _ :: _ =>
        andThen (ensureColumnIfMissing cols "server_ip_v4")
          (andThen (ensureColumnIfMissing cols "server_ip_v6")
             backfillNodeDualStackColumns) t
    end.

(** ** The migration in the words of its contract *)

(** A row whose v4 or v6 column already holds a non-blank value. *)
Definition populated (r : NodeRow) : bool :=
  notBlank (server_ip_v4 r) || notBlank (server_ip_v6 r).

Definition setV4 (r : NodeRow) (v : string) : NodeRow :=
  mkNodeRow (id r) (server_ip r) (Some v) (server_ip_v6 r).

Definition setV6 (r : NodeRow) (v : string) : NodeRow :=
  mkNodeRow (id r) (server_ip r) (server_ip_v4 r) (Some v).

(** [Backfill r r']: what the backfill may do to a stored row [r].  It
    writes only when [server_ip] is non-blank and both new columns are blank:
    the trimmed address goes to v4 when the IPv4 pattern matches it, to v6
    when it does not but holds two colons or more, and nowhere otherwise. *)
Inductive Backfill (r : NodeRow) : NodeRow -> Prop :=
| BackfillNoAddress :
    notBlank (server_ip r) = false -> Backfill r r
| BackfillPopulated :
    populated r = true -> Backfill r r
| BackfillV4 (ip : string) :
    server_ip r = Some ip -> isBlank ip = false -> populated r = false ->
    matches ipv4 (trim ip) = true ->
    Backfill r (setV4 r (trim ip))
| BackfillV6 (ip : string) :
    server_ip r = Some ip -> isBlank ip = false -> populated r = false ->
    matches ipv4 (trim ip) = false -> 2 <= countS isColon (trim ip) ->
    Backfill r (setV6 r (trim ip))
| BackfillUnclassified (ip : string) :
    server_ip r = Some ip -> isBlank ip = false -> populated r = false ->
    matches ipv4 (trim ip) = false -> countS isColon (trim ip) < 2 ->
    Backfill r r.

(** A store as an older release left it: no dual-stack column yet, one
    address of each kind, one host name and one row without address. *)
Definition legacyTable : NodeTable :=
  mkNodeTable ["id"; "name"; "server_ip"]
    [mkNodeRow 1 (Some "10.10.10.1") None None;
     mkNodeRow 2 (Some " 2001:db8::10 ") None None;
     mkNodeRow 3 (Some "panel.example.com") None None;
     mkNodeRow 4 None None None].

Definition migratedTable : NodeTable :=
  mkNodeTable ["id"; "name"; "server_ip"; "server_ip_v4"; "server_ip_v6"]
    [mkNodeRow 1 (Some "10.10.10.1") (Some "10.10.10.1") None;
     mkNodeRow 2 (Some " 2001:db8::10 ") None (Some "2001:db8::10");
     mkNodeRow 3 (Some "panel.example.com") None None;
     mkNodeRow 4 None None None].

(** ** Notions the proofs use *)

(** Every value an UPDATE writes is non-blank. *)
Definition writesNonBlank (u : update) : Prop :=
  match u with
  | NoUpdate => True
  | UpdV4 v | UpdV6 v => isBlank v = false
  end.

(** One stored row under every pass of the loop. *)
Definition applyAll (snapshot : list NodeRow) (r : NodeRow) : NodeRow :=
  fold_left (fun acc s => applyUpdate (rowUpdate s) (id s) acc) snapshot r.

(** The decision of [rowUpdate] applied to the row it was taken for. *)
Definition backfilled (r : NodeRow) : NodeRow :=
  applyUpdate (rowUpdate r) (id r) r.

Definition addColumn (c : string) (t : NodeTable) : NodeTable :=
  mkNodeTable (columns t ++ [c]) (rows t).

(** The ways a run can end, with the table each one leaves. *)
Inductive Run (t : NodeTable) : NodeTable * outcome -> Prop :=
| RunNoTable :
    getTableColumns t = [] -> Run t (t, Returned)
| RunRefused4 :
    getTableColumns t <> [] ->
    elem "server_ip_v4" (getTableColumns t) = false ->
    elemFold "server_ip_v4" (columns t) = true ->
    Run t (t, Thrown)
| RunRefused6 (added : list string) :
    getTableColumns t <> [] ->
    (added = [] /\ elem "server_ip_v4" (getTableColumns t) = true \/
     added = ["server_ip_v4"] /\ elemFold "server_ip_v4" (columns t) = false) ->
    elem "server_ip_v6" (getTableColumns t) = false ->
    elemFold "server_ip_v6" (columns t) = true ->
    Run t (mkNodeTable (columns t ++ added) (rows t), Thrown)
| RunBackfill (added : list string) :
    getTableColumns t <> [] ->
    (forall c, In c added ->
       (c = "server_ip_v4" \/ c = "server_ip_v6") /\
       elemFold c (columns t) = false) ->
    elem "server_ip_v4" (getTableColumns t ++ added)%list = true ->
    elem "server_ip_v6" (getTableColumns t ++ added)%list = true ->
    getTableColumns (mkNodeTable (columns t ++ added) (rows t))
    = (getTableColumns t ++ added)%list ->
    Run t (backfillNodeDualStackColumns
             (mkNodeTable (columns t ++ added) (rows t))).

End SQLiteConfig.


(* ===================================================================== *)
(** * The store behind [h.repo] *)
(* ===================================================================== *)

Module Store.

(** Modelled from the spec: the [sqlite.Repository] type, its row types and
    its queries are not among the sources.  The tables below follow the
    data model (section 3) with the column names of the INSERT and SELECT
    statements of the Go tests and the fields [handler.go] reads; each
    record keeps the columns some operation of this development looks at. *)

(** node *)
Record Node : Type := mkNode {
  node_id : Z;
  node_name : string;
  node_secret : string;
  node_port : string;
  node_status : Z;
  is_remote : Z;
  remote_url : string;
  remote_token : string
}.

(** peer_share, the fields of [sqlite.PeerShare] *)
Record PeerShare : Type := mkPeerShare {
  share_id : Z;
  share_name : string;
  share_node_id : Z;
  token : string;
  max_bandwidth : Z;
  current_flow : Z;
  expiry_time : Z;
  port_range_start : Z;
  port_range_end : Z;
  is_active : Z;
  allowed_ips : string
}.

(** peer_share_runtime *)
Record PeerShareRuntime : Type := mkPeerShareRuntime {
  runtime_id : Z;
  runtime_share_id : Z;
  runtime_node_id : Z;
  reservation_id : string;
  resource_key : string;
  binding_id : string;
  role : string;
  service_name : string;
  runtime_port : Z;
  applied : Z;
  runtime_status : Z
}.

(** chain_tunnel *)
Record ChainTunnel : Type := mkChainTunnel {
  chain_tunnel_id : Z;
  chain_type : Z;
  chain_node_id : Z;
  chain_port : Z;
  chain_inx : Z
}.

(** forward_port *)
Record ForwardPort : Type := mkForwardPort {
  forward_id : Z;
  forward_node_id : Z;
  forward_port : Z
}.

(** The in/out byte counters of a forward, a user or a user_tunnel row. *)
Record FlowRow : Type := mkFlowRow {
  flow_row_id : Z;
  in_flow : Z;
  out_flow : Z
}.

Record Repository : Type := mkRepository {
  nodes : list Node;
  peer_shares : list PeerShare;
  peer_share_runtimes : list PeerShareRuntime;
  chain_tunnels : list ChainTunnel;
  forward_ports : list ForwardPort;
  forwards : list FlowRow;
  users : list FlowRow;
  user_tunnels : list FlowRow
}.

(** Modelled from the spec: [Repository.NodeExistsBySecret], whose body is
    not among the sources; by its name and its use in [flowConfig] and
    [flowUpload] it tells whether some node row carries the secret. *)
Definition NodeExistsBySecret (repo : Repository) (secret : string) : bool :=
  existsb (fun n => String.eqb (node_secret n) secret) (nodes repo).

(** Modelled from the spec: the two lookups by key the Go tests call. *)
Definition GetPeerShare (repo : Repository) (key : Z) : option PeerShare :=
  find (fun s => share_id s =? key) (peer_shares repo).

Definition GetPeerShareRuntimeByID (repo : Repository) (key : Z)
  : option PeerShareRuntime :=
  find (fun r => runtime_id r =? key) (peer_share_runtimes repo).

End Store.


(* ===================================================================== *)
(** * handler.go: the flow upload endpoint *)
(* ===================================================================== *)

Module Handler.

Import Text Store.

Record flowItem : Type := mkFlowItem {
  N : string;
  U : Z;
  D : Z
}.

(** What [flowUpload] reads of the request: the [secret] query parameter
    and the body ([None] when [io.ReadAll] fails). *)
Record Request : Type := mkRequest {
  query_secret : string;
  body : option string
}.

(** What the handler writes: the Content-Type header and the body. *)
Record Response : Type := mkResponse {
  content_type : string;
  written : string
}.

Definition okText : Response :=
  mkResponse "text/plain; charset=utf-8" "ok".

(** The wrapper [{encrypted, data, timestamp}] of an uploaded body. *)
Record flowWrap : Type := mkFlowWrap {
  Encrypted : bool;
  Data : string;
  Timestamp : Z
}.

(** ** strings.Split and strconv.ParseInt *)

(** strings.Split(s, sep) for a one-character separator. *)
Fixpoint Split (s : string) (sep : ascii) : list string :=
  match s with
  | EmptyString => [EmptyString]
  | String c s' =>
      if Ascii.eqb c sep then EmptyString :: Split s' sep
      else
        match Split s' sep with
        | [] => [String c EmptyString]
        | part :: parts => String c part :: parts
        end
  end.

Definition isDigit (c : ascii) : bool := (48 <=? code c) && (code c <=? 57).

Fixpoint digitsValue (acc : Z) (s : string) : Z :=
  match s with
  | EmptyString => acc
  | String c s' => digitsValue (10 * acc + (code c - 48)) s'
  end.

Definition unsignedDecimal (s : string) : option Z :=
  match s with
  | EmptyString => None
  | _ => if forallS isDigit s then Some (digitsValue 0 s) else None
  end.

(** strconv.ParseInt(s, 10, 64): an optional sign, then decimal digits; a
    value outside the int64 range is an error. *)
Definition ParseInt (s : string) : option Z :=
  let signed :=
    match s with
    | String "+" s' => unsignedDecimal s'
    | String "-" s' => option_map Z.opp (unsignedDecimal s')
    | _ => unsignedDecimal s
    end in
  match signed with
  | Some v =>
      if (- 2 ^ 63 <=? v) && (v <=? 2 ^ 63 - 1) then Some v else None
  | None => None
  end.

Definition nth_part (parts : list string) (i : nat) : string :=
  nth i parts EmptyString.

Section FlowUpload.

(** [Repository.AddFlow(forwardID, userID, userTunnelID, d, u)]: the
    statement it runs is not among the sources; it is left open. *)
Variable AddFlow : Z -> Z -> Z -> Z -> Z -> Repository -> Repository.

(** Library calls: strings.TrimSpace, json.Unmarshal into the wrapper and
    into [[]flowItem], and security.NewAESCrypto(secret).Decrypt(data). *)
Variable TrimSpace : string -> string.
Variable unmarshalWrap : string -> option flowWrap.
Variable unmarshalItems : string -> option (list flowItem).
Variable aesDecrypt : string -> string -> option string.

(** readAndDecryptFlowBody; [None] is the error return. *)
Definition readAndDecryptFlowBody (body : option string) (secret : string)
  : option string :=
  match body with
  | None => None
  | Some raw =>
      let text := TrimSpace raw in
      if String.eqb text "" then Some ""
      else
        match unmarshalWrap raw with
        | None => Some text
        | Some wrap =>
            if negb (Encrypted wrap) || String.eqb (TrimSpace (Data wrap)) ""
            then Some text
            else
              match aesDecrypt secret (Data wrap) with
              | None => Some text
              | Some plain => Some plain
              end
        end
  end.

(** One pass of the [for _, item := range items] loop of [flowUpload]. *)
Definition flowUploadItem (repo : Repository) (item : flowItem) : Repository :=
  let parts := Split (N item) "_" in
  if (Z.of_nat (List.length parts) <? 3) || String.eqb (N item) "web_api"
  then repo
  else
    match ParseInt (nth_part parts 0), ParseInt (nth_part parts 1),
          ParseInt (nth_part parts 2) with
    | Some forwardID, Some userID, Some userTunnelID =>
        AddFlow forwardID userID userTunnelID (D item) (U item) repo
    | _, _, _ => repo
    end.

Definition flowUpload (repo : Repository) (r : Request)
  : Repository * Response :=
  let secret := query_secret r in
  if negb (NodeExistsBySecret repo secret) then (repo, okText)
  else
    let repo' :=
      match readAndDecryptFlowBody (body r) secret with
      | Some raw =>
          if negb (String.eqb (TrimSpace raw) "") then
            match unmarshalItems raw with
            | Some items => fold_left flowUploadItem items repo
            | None => repo
            end
          else repo
      | None => repo
      end in
    (repo', okText).

End FlowUpload.

(** ** The scenario of TestProcessFlowItemTracksPeerShareFlowAndEnforcesLimit *)

Definition flowShare : PeerShare :=
  mkPeerShare 1 "flow-share" 1 "flow-share-token" 3000 1000 0 32000 32010 1 "".

Definition flowRuntime : PeerShareRuntime :=
  mkPeerShareRuntime 17 1 1 "res-17" "rk-17" "17" "exit" "fed_svc_17" 32001 1 1.

Definition flowNode : Node :=
  mkNode 1 "flow-node" "flow-node-secret" "32000-32010" 1 0 "" "".

Definition flowRepo : Repository :=
  mkRepository [flowNode] [flowShare] [flowRuntime] [] [] [] [] [].

Definition fedItem : flowItem := mkFlowItem "fed_svc_17" 1200 900.

(** Stand-ins for the open parts, for the concrete runs below: an [AddFlow]
    that would wipe the store (so that an unchanged store shows it was never
    called), no trimming, no wrapper, and a decoder that knows two bodies. *)
Definition wipingAddFlow (_ _ _ _ _ : Z) (_ : Repository) : Repository :=
  mkRepository [] [] [] [] [] [] [] [].

Definition sampleItems (raw : string) : option (list flowItem) :=
  if String.eqb raw "fed" then Some [fedItem]
  else if String.eqb raw "forward" then Some [mkFlowItem "12_34_56" 7 9]
  else None.

Definition sampleUpload : Repository -> Request -> Repository * Response :=
  flowUpload wipingAddFlow (fun s => s) (fun _ => None) sampleItems
    (fun _ _ => None).

End Handler.


(* ===================================================================== *)
(** * Peer-share port picking *)
(* ===================================================================== *)

Module Federation.

Import Text Store.

(** Modelled from the spec: [Handler.pickPeerSharePort] is called by
    TestPickPeerSharePortUsesRuntimeReservations but its body is not among
    the sources.  The definitions follow section 4.C ("allocate the lowest free
    port in the share range that is not present in any active runtime row,
    local chain-tunnel row, or forward-port row on the node"; a requested
    port "must lie in the range and be free") and the rows the test
    inserts. *)

(** A port of node [nodeId] taken by an active runtime row, a chain_tunnel
    row or a forward_port row. *)
Definition portInUse (repo : Repository) (nodeId port : Z) : bool :=
  existsb (fun r => (runtime_node_id r =? nodeId) && (runtime_status r =? 1)
                    && (runtime_port r =? port))
    (peer_share_runtimes repo)
  || existsb (fun c => (chain_node_id c =? nodeId) && (chain_port c =? port))
       (chain_tunnels repo)
  || existsb (fun f => (forward_node_id f =? nodeId) && (forward_port f =? port))
       (forward_ports repo).

(** Scan [count] ports upwards from [port] and stop at the first free one. *)
Fixpoint firstFreePort (repo : Repository) (nodeId port : Z) (count : nat)
  : option Z :=
  match count with
  | O => None
  | S count' =>
      if portInUse repo nodeId port
      then firstFreePort repo nodeId (port + 1) count'
      else Some port
  end.

(** [None] is the error return (PORT_BUSY). *)
Definition pickPeerSharePort (repo : Repository) (share : PeerShare)
    (requestedPort : Z) : option Z :=
  let lo := port_range_start share in
  let hi := port_range_end share in
  if requestedPort =? 0
  then firstFreePort repo (share_node_id share) lo (Z.to_nat (hi - lo + 1))
  else if (lo <=? requestedPort) && (requestedPort <=? hi)
          && negb (portInUse repo (share_node_id share) requestedPort)
       then Some requestedPort
       else None.

(** The three row kinds of the port invariant, stated on the rows. *)
Definition Occupied (repo : Repository) (nodeId port : Z) : Prop :=
  (exists r, In r (peer_share_runtimes repo) /\ runtime_status r = 1 /\
             runtime_node_id r = nodeId /\ runtime_port r = port)
  \/ (exists c, In c (chain_tunnels repo) /\
                chain_node_id c = nodeId /\ chain_port c = port)
  \/ (exists f, In f (forward_ports repo) /\
                forward_node_id f = nodeId /\ forward_port f = port).

(** The store and the share of the Go test: port 3000 held by a chain
    tunnel, 3001 by a forward, 3002 by an active runtime row. *)
Definition pickRepo : Repository :=
  mkRepository []
    []
    [mkPeerShareRuntime 1 77 1 "res-1" "rk-1" "b-1" "exit" "fed_svc_1" 3002 1 1]
    [mkChainTunnel 1 2 1 3000 1]
    [mkForwardPort 1 1 3001]
    [] [] [].

Definition pickShare : PeerShare :=
  mkPeerShare 77 "" 1 "" 0 0 0 3000 3004 0 "".

End Federation.

(* ===================================================================== *)
(** * Service names of the forward control commands *)
(* ===================================================================== *)

Module ForwardControl.

Import Text.

(** Modelled from the spec: [buildForwardControlServiceNames] and
    [shouldTryLegacySingleService] are exercised by the tests of the handler
    package but their bodies are not among the sources.  The definitions follow
    section 6 ("PauseService/ResumeService target base_tcp and base_udp;
    DeleteService additionally targets the bare base; legacy fallback to the
    bare base applies to Pause/Resume only (case-insensitive command
    match)") and the order and the padded, lower-case commands of the
    tests. *)

(** White space of strings.TrimSpace within ASCII. *)
Definition isSpace (c : ascii) : bool :=
  ((9 <=? code c) && (code c <=? 13)) || (code c =? 32).

Definition TrimSpace (s : string) : string := strip isSpace s.

(** strings.EqualFold within ASCII. *)
Definition EqualFold (a b : string) : bool := eqbFold a b.

Definition buildForwardControlServiceNames (base command : string)
  : list string :=
  if EqualFold (TrimSpace command) "DeleteService"
  then [base; (base ++ "_tcp")%string; (base ++ "_udp")%string]
  else [(base ++ "_tcp")%string; (base ++ "_udp")%string].

Definition shouldTryLegacySingleService (command : string) : bool :=
  EqualFold (TrimSpace command) "PauseService"
  || EqualFold (TrimSpace command) "ResumeService".

(** ** The command match in the words of the contract

    Stated on character codes and on the shape of the text, without the
    folding and the trimming the two functions go through. *)

(** The same character, or the same letter of A..Z in its two cases. *)
Definition sameLetter (a b : ascii) : Prop :=
  a = b
  \/ (65 <= code a <= 90 /\ code b = code a + 32)
  \/ (65 <= code b <= 90 /\ code a = code b + 32).

Inductive caseVariant : string -> string -> Prop :=
| VariantEmpty : caseVariant EmptyString EmptyString
| VariantChar (a b : ascii) (s t : string) :
    sameLetter a b -> caseVariant s t ->
    caseVariant (String a s) (String b t).

(** SPACE, TAB, LF, VT, FF and CR, one by one. *)
Definition blankChar (c : ascii) : Prop :=
  In c [" "%char; "009"%char; "010"%char; "011"%char; "012"%char;
        "013"%char].

Inductive blanks : string -> Prop :=
| BlanksEmpty : blanks EmptyString
| BlanksChar (c : ascii) (s : string) :
    blankChar c -> blanks s -> blanks (String c s).

(** [command] names [name]: it is a spelling of [name] in any mix of upper
    and lower case, with blanks before and after it and nothing else. *)
Definition names (command name : string) : Prop :=
  exists pre word post,
    command = (pre ++ word ++ post)%string /\
    blanks pre /\ blanks post /\ caseVariant word name.

(** A word without blank of any kind. *)
Definition solid (s : string) : bool := forallS (fun c => negb (isSpace c)) s.

End ForwardControl.


(* ===================================================================== *)
(** * What the IPv4 pattern of SQLiteConfig.java accepts *)
(* ===================================================================== *)

Module DottedQuad.

Import Text.

(** The language of a pattern, by the usual reading of concatenation,
    alternation and [?]; [Text.matches] is checked against it. *)
Inductive lang : regex -> string -> Prop :=
| LangEps : lang ReEps EmptyString
| LangSet (p : ascii -> bool) (c : ascii) :
    p c = true -> lang (ReSet p) (String c EmptyString)
| LangCat (r s : regex) (u v : string) :
    lang r u -> lang s v -> lang (ReCat r s) (u ++ v)
| LangAltL (r s : regex) (u : string) : lang r u -> lang (ReAlt r s) u
| LangAltR (r s : regex) (u : string) : lang s u -> lang (ReAlt r s) u
| LangOptNone (r : regex) : lang (ReOpt r) EmptyString
| LangOptSome (r : regex) (u : string) : lang r u -> lang (ReOpt r) u.

Definition isDigit (c : ascii) : bool := (48 <=? code c) && (code c <=? 57).

(** The number a run of decimal digits denotes. *)
Fixpoint decimalValue (acc : Z) (s : string) : Z :=
  match s with
  | EmptyString => acc
  | String c s' => decimalValue (10 * acc + (code c - 48)) s'
  end.

(** One to three decimal digits denoting at most 255. *)
Definition octetNumeral (o : string) : Prop :=
  forallS isDigit o = true /\
  (1 <= String.length o <= 3)%nat /\
  decimalValue 0 o <= 255.

Definition dot : string := String "." EmptyString.

(** Four octet numerals separated by dots, and nothing else. *)
Definition dottedQuad (s : string) : Prop :=
  exists a b c d,
    s = (a ++ dot ++ b ++ dot ++ c ++ dot ++ d)%string /\
    octetNumeral a /\ octetNumeral b /\ octetNumeral c /\ octetNumeral d.

End DottedQuad.


(* ===================================================================== *)
(** * handler.go: login, password change and configuration updates *)
(* ===================================================================== *)

Module Accounts.

Import Text Store Handler.

(** The package [response] is not among the sources.  A reply is recorded
    as the constructor [handler.go] calls, with its arguments: response.OK,
    response.OKEmpty, response.Err(code, msg) and response.ErrDefault(msg). *)
Inductive R (A : Type) : Type :=
| OK (data : A)
| OKEmpty
| Err (code : Z) (msg : string)
| ErrDefault (msg : string).

Arguments OK {A} data.
Arguments OKEmpty {A}.
Arguments Err {A} code msg.
Arguments ErrDefault {A} msg.

(** A repository lookup returning a pointer and an error: a row, nil with
    no error, or an error with its text. *)
Inductive lookup (A : Type) : Type :=
| Found (row : A)
| Missing
| Failed (err : string).

Arguments Found {A} row.
Arguments Missing {A}.
Arguments Failed {A} err.

(** The fields of a user row and of a config row that the handlers read. *)
Record User : Type := mkUser {
  ID : Z;
  UserName : string;
  Pwd : string;
  RoleID : Z;
  Status : Z
}.

Record Config : Type := mkConfig {
  Name : string;
  Value : string
}.

Record loginRequest : Type := mkLoginRequest {
  Username : string;
  Password : string;
  CaptchaID : string
}.

Record changePasswordRequest : Type := mkChangePasswordRequest {
  NewUsername : string;
  CurrentPassword : string;
  NewPassword : string;
  ConfirmPassword : string
}.

(** The data of a successful login. *)
Record loginData : Type := mkLoginData {
  login_token : string;
  login_name : string;
  login_role_id : Z;
  requirePasswordChange : bool
}.

Definition MethodPost : string := "POST".

(** parseUserID: a decimal int64 above zero, or an error. *)
Definition parseUserID (sub : string) : option Z :=
  match ParseInt sub with
  | Some id => if id <=? 0 then None else Some id
  | None => None
  end.

(** userIDFromRequest: [claims] is the [Sub] of the claims found in the
    request context, if any. *)
Definition userIDFromRequest (claims : option string) : option Z :=
  match claims with
  | None => None
  | Some sub => parseUserID sub
  end.

Section Handlers.

(** Library and package calls left open: strings.TrimSpace,
    strings.EqualFold, security.MD5 and auth.GenerateToken (a token or the
    text of its error). *)
Variable TrimSpace : string -> string.
Variable EqualFold : string -> string -> bool.
Variable MD5 : string -> string.
Variable GenerateToken : Z -> string -> Z -> string -> string + string.

(** The store and the repository methods the three handlers call; their
    bodies are not among the sources.  A method that writes returns the
    store it leaves and the error, if any. *)
Variable S : Type.
Variable GetConfigByName : S -> string -> lookup Config.
Variable GetUserByUsername : S -> string -> lookup User.
Variable GetUserByID : S -> Z -> lookup User.
Variable UsernameExistsExceptID : S -> string -> Z -> string + bool.
Variable UpdateUserNameAndPassword :
  Z -> string -> string -> Z -> S -> S * option string.
Variable UpsertConfig : string -> string -> Z -> S -> S * option string.

Variable jwtSecret : string.

Definition blank (s : string) : bool := String.eqb (TrimSpace s) "".

(** captchaEnabled: the error text, or the flag. *)
Definition captchaEnabled (s : S) : string + bool :=
  match GetConfigByName s "captcha_enabled" with
  | Failed err => inl err
  | Missing => inr false
  | Found cfg => inr (EqualFold (Value cfg) "true")
  end.

(** login; [body] is the request decoded by decodeJSON, [None] when
    decoding fails. *)
Definition login (s : S) (method : string) (body : option loginRequest)
  : R loginData :=
  if negb (String.eqb method MethodPost) then ErrDefault "请求失败"
  else
    match body with
    | None => Err 500 "请求参数错误"
    | Some req =>
        if blank (Username req) then Err 500 "用户名不能为空"
        else if blank (Password req) then Err 500 "密码不能为空"
        else
          match captchaEnabled s with
          | inl err => Err (-2) err
          | inr enabled =>
              if enabled && blank (CaptchaID req)
              then ErrDefault "验证码校验失败"
              else
                match GetUserByUsername s (Username req) with
                | Failed err => Err (-2) err
                | Missing => ErrDefault "账号或密码错误"
                | Found user =>
                    if negb (String.eqb (Pwd user) (MD5 (Password req)))
                    then ErrDefault "账号或密码错误"
                    else if Status user =? 0 then ErrDefault "账号被停用"
                    else
                      match GenerateToken (ID user) (UserName user)
                              (RoleID user) jwtSecret with
                      | inr err => Err (-2) err
                      | inl token =>
                          OK (mkLoginData token (UserName user) (RoleID user)
                                (String.eqb (Username req) "admin_user"
                                 || String.eqb (Password req) "admin_user"))
                      end
                end
          end
    end.

(** checkCaptcha *)
Definition checkCaptcha (s : S) (method : string) : R Z :=
  if negb (String.eqb method MethodPost) then ErrDefault "请求失败"
  else
    match captchaEnabled s with
    | inl err => Err (-2) err
    | inr true => OK 1
    | inr false => OK 0
    end.

(** updatePassword; [claims] is the [Sub] of the claims in the request
    context, [now] is time.Now().UnixMilli(). *)
Definition updatePassword (s : S) (method : string) (claims : option string)
    (body : option changePasswordRequest) (now : Z) : S * R unit :=
  if negb (String.eqb method MethodPost) then (s, ErrDefault "请求失败")
  else
    match claims with
    | None => (s, Err 401 "无效的token或token已过期")
    | Some sub =>
        match parseUserID sub with
        | None => (s, Err 401 "无效的token或token已过期")
        | Some userID =>
            match body with
            | None => (s, ErrDefault "修改账号密码时发生错误")
            | Some req =>
                if blank (NewUsername req)
                then (s, ErrDefault "新用户名不能为空")
                else if blank (CurrentPassword req)
                then (s, ErrDefault "当前密码不能为空")
                else if blank (NewPassword req)
                then (s, ErrDefault "新密码不能为空")
                else if blank (ConfirmPassword req)
                then (s, ErrDefault "确认密码不能为空")
                else if negb (String.eqb (NewPassword req)
                                (ConfirmPassword req))
                then (s, ErrDefault "新密码和确认密码不匹配")
                else
                  match GetUserByID s userID with
                  | Failed err => (s, Err (-2) err)
                  | Missing => (s, ErrDefault "用户不存在")
                  | Found user =>
                      if negb (String.eqb (Pwd user)
                                 (MD5 (CurrentPassword req)))
                      then (s, ErrDefault "当前密码错误")
                      else
                        match UsernameExistsExceptID s (NewUsername req)
                                userID with
                        | inl err => (s, Err (-2) err)
                        | inr true => (s, ErrDefault "用户名已存在")
                        | inr false =>
                            match UpdateUserNameAndPassword userID
                                    (NewUsername req) (MD5 (NewPassword req))
                                    now s with
                            | (s', Some err) => (s', Err (-2) err)
                            | (s', None) => (s', OKEmpty)
                            end
                        end
                  end
            end
        end
    end.

(** The [for k, v := range payload] loop of updateConfigs over the entries
    in the order the map yields them: [None] when every upsert succeeded,
    the error that made the handler return otherwise. *)
Fixpoint upsertEntries (entries : list (string * string)) (now : Z) (s : S)
  : S * option string :=
  match entries with
  | [] => (s, None)
  | (k, v) :: rest =>
      let key := TrimSpace k in
      if String.eqb key "" then upsertEntries rest now s
      else
        match UpsertConfig key v now s with
        | (s', Some err) => (s', Some err)
        | (s', None) => upsertEntries rest now s'
        end
  end.

(** updateConfigs; [body] is the decoded map as the list of its entries. *)
Definition updateConfigs (s : S) (method : string)
    (body : option (list (string * string))) (now : Z) : S * R unit :=
  if negb (String.eqb method MethodPost) then (s, ErrDefault "请求失败")
  else
    match body with
    | None => (s, ErrDefault "配置数据不能为空")
    | Some [] => (s, ErrDefault "配置数据不能为空")
    | Some payload =>
        match upsertEntries payload now s with
        | (s', Some err) => (s', Err (-2) err)
        | (s', None) => (s', OKEmpty)
        end
    end.

(** updateSingleConfig *)
Definition updateSingleConfig (s : S) (method : string)
    (body : option (string * string)) (now : Z) : S * R unit :=
  if negb (String.eqb method MethodPost) then (s, ErrDefault "请求失败")
  else
    match body with
    | None => (s, ErrDefault "配置名称不能为空")
    | Some (name, value) =>
        if blank name then (s, ErrDefault "配置名称不能为空")
        else if blank value then (s, ErrDefault "配置值不能为空")
        else
          match UpsertConfig (TrimSpace name) value now s with
          | (s', Some err) => (s', Err (-2) err)
          | (s', None) => (s', OKEmpty)
          end
    end.

End Handlers.

(** ** Names the facts use *)

Definition isSeparator (c : ascii) : bool := Ascii.eqb c "_".

(** A part of a service name: no underscore inside. *)
Definition plainPart (s : string) : bool :=
  forallS (fun c => negb (isSeparator c)) s.

(** A sample [AddFlow] for concrete runs: it adds the download and upload
    bytes to the forward row of that id and leaves every other table. *)
Definition countingAddFlow (forwardID _ _ d u : Z) (repo : Repository)
  : Repository :=
  mkRepository (nodes repo) (peer_shares repo) (peer_share_runtimes repo)
    (chain_tunnels repo) (forward_ports repo)
    (map (fun f => if flow_row_id f =? forwardID
                   then mkFlowRow (flow_row_id f) (in_flow f + d)
                          (out_flow f + u)
                   else f) (forwards repo))
    (users repo) (user_tunnels repo).

(** Sample collaborators for concrete runs of the account handlers: the
    store is a list of users, the digest is the text reversed, the token is
    the user name. *)
Definition sampleUsers : list User :=
  [mkUser 1 "admin_user" (Text.rev "admin_user") 0 1;
   mkUser 2 "alice" (Text.rev "wonderland") 1 1;
   mkUser 3 "bob" (Text.rev "builder") 1 0].

Definition sampleByName (s : list User) (name : string) : lookup User :=
  match find (fun u => String.eqb (UserName u) name) s with
  | Some u => Found u
  | None => Missing
  end.

Definition sampleByID (s : list User) (key : Z) : lookup User :=
  match find (fun u => ID u =? key) s with
  | Some u => Found u
  | None => Missing
  end.

Definition sampleNameTaken (s : list User) (name : string) (key : Z)
  : string + bool :=
  inr (existsb (fun u => String.eqb (UserName u) name
                         && negb (ID u =? key)) s).

Definition sampleUpdate (key : Z) (name pwd : string) (_ : Z) (s : list User)
  : list User * option string :=
  (map (fun u => if ID u =? key
                 then mkUser (ID u) name pwd (RoleID u) (Status u)
                 else u) s, None).

Definition sampleToken (_ : Z) (name : string) (_ : Z) (_ : string)
  : string + string := inl name.

Definition sampleLogin (s : list User) : string -> option loginRequest
                                         -> R loginData :=
  login (fun x => x) String.eqb Text.rev sampleToken (list User)
    (fun _ _ => Missing) sampleByName "secret" s.

Definition sampleChangePassword (s : list User) (claims : option string)
    (body : option changePasswordRequest) : list User * R unit :=
  updatePassword (fun x => x) Text.rev (list User) sampleByID sampleNameTaken
    sampleUpdate s "POST" claims body 0.

(** A sample config store: name and value pairs; writing the name "locked"
    fails and leaves the store as it is. *)
Definition sampleUpsert (name value : string) (_ : Z)
    (s : list (string * string)) : list (string * string) * option string :=
  if String.eqb name "locked" then (s, Some "locked")
  else ((name, value) :: filter (fun e => negb (String.eqb (fst e) name)) s,
        None).

Definition sampleUpdateConfigs (s : list (string * string))
    (body : option (list (string * string)))
  : list (string * string) * R unit :=
  updateConfigs (fun x => x) (list (string * string)) sampleUpsert s "POST"
    body 0.

End Accounts.


(* ===================================================================== *)
(** * Facts about the dual-stack migration *)
(* ===================================================================== *)

Module SQLiteConfigFacts.

Import Text SQLiteConfig.
Local Open Scope list_scope.

(** ** The pattern and the colon heuristic never accept a blank string *)

Lemma matches_ReNone (s : string) : matches ReNone s = false.
Proof. induction s as [|c s IH]; simpl; auto. Qed.

Lemma deriv_ipv4_whitespace (c : ascii) :
  isWhitespace c = true -> deriv c ipv4 = ReNone.
Proof.
  destruct c as [[] [] [] [] [] [] [] []]; intro H; vm_compute in H;
    try discriminate H; vm_compute; reflexivity.
Qed.

Lemma ipv4_not_blank (s : string) :
  matches ipv4 s = true -> isBlank s = false.
Proof.
  destruct s as [|c s]; intro H.
  - vm_compute in H. discriminate H.
  - unfold isBlank. simpl. destruct (isWhitespace c) eqn:W; [|reflexivity].
    change (matches (deriv c ipv4) s = true) in H.
    rewrite (deriv_ipv4_whitespace c W), matches_ReNone in H.
    discriminate H.
Qed.

Lemma colon_not_whitespace (c : ascii) :
  isColon c = true -> isWhitespace c = false.
Proof.
  unfold isColon, isWhitespace. intro H. apply Z.eqb_eq in H. rewrite H.
  reflexivity.
Qed.

Lemma countS_nonneg (p : ascii -> bool) (s : string) : 0 <= countS p s.
Proof. induction s as [|c s IH]; simpl; [lia|]. destruct (p c); lia. Qed.

Lemma colons_not_blank (s : string) :
  1 <= countS isColon s -> isBlank s = false.
Proof.
  unfold isBlank. induction s as [|c s IH]; simpl; intro H; [lia|].
  destruct (isColon c) eqn:C.
  - rewrite (colon_not_whitespace c C). reflexivity.
  - rewrite IH by lia. apply andb_false_r.
Qed.

Lemma rowUpdate_nonblank (r : NodeRow) : writesNonBlank (rowUpdate r).
Proof.
  unfold rowUpdate. destruct (server_ip r) as [ip|]; simpl; auto.
  destruct (isBlank ip); simpl; auto.
  destruct (notBlank (server_ip_v4 r) || notBlank (server_ip_v6 r)); simpl; auto.
  destruct (matches ipv4 (trim ip)) eqn:M; simpl.
  - apply ipv4_not_blank; assumption.
  - destruct (2 <=? countS isColon (trim ip)) eqn:C; simpl; auto.
    apply colons_not_blank. apply Z.leb_le in C. lia.
Qed.

(** ** One stored row under the whole loop *)

Lemma loop_as_map (snapshot stored : list NodeRow) :
  fold_left loopStep snapshot stored = map (applyAll snapshot) stored.
Proof.
  revert stored. induction snapshot as [|s snapshot IH]; intro stored; simpl.
  - symmetry. apply map_id.
  - rewrite IH. unfold loopStep. rewrite map_map. reflexivity.
Qed.

Lemma applyUpdate_id (u : update) (k : Z) (r : NodeRow) :
  id (applyUpdate u k r) = id r.
Proof. unfold applyUpdate. destruct (id r =? k), u; reflexivity. Qed.

Lemma applyUpdate_server_ip (u : update) (k : Z) (r : NodeRow) :
  server_ip (applyUpdate u k r) = server_ip r.
Proof. unfold applyUpdate. destruct (id r =? k), u; reflexivity. Qed.

Lemma applyUpdate_populated (u : update) (k : Z) (r : NodeRow) :
  writesNonBlank u -> populated r = true ->
  populated (applyUpdate u k r) = true.
Proof.
  unfold applyUpdate, populated. intros W P.
  destruct (id r =? k); [|assumption].
  destruct u as [|v|v]; simpl in *; [assumption| |].
  - rewrite W. reflexivity.
  - rewrite W. apply orb_true_r.
Qed.

Lemma applyUpdate_hits (u : update) (r : NodeRow) :
  writesNonBlank u -> u <> NoUpdate ->
  populated (applyUpdate u (id r) r) = true.
Proof.
  unfold applyUpdate, populated. intros W N. rewrite Z.eqb_refl.
  destruct u as [|v|v]; simpl in *; [congruence| |]; rewrite W; simpl;
    auto using orb_true_r.
Qed.

Lemma applyAll_id (snapshot : list NodeRow) (r : NodeRow) :
  id (applyAll snapshot r) = id r.
Proof.
  unfold applyAll. revert r.
  induction snapshot as [|s snapshot IH]; intro r; simpl; [reflexivity|].
  rewrite IH. apply applyUpdate_id.
Qed.

Lemma applyAll_server_ip (snapshot : list NodeRow) (r : NodeRow) :
  server_ip (applyAll snapshot r) = server_ip r.
Proof.
  unfold applyAll. revert r.
  induction snapshot as [|s snapshot IH]; intro r; simpl; [reflexivity|].
  rewrite IH. apply applyUpdate_server_ip.
Qed.

Lemma applyAll_populated (snapshot : list NodeRow) (r : NodeRow) :
  populated r = true -> populated (applyAll snapshot r) = true.
Proof.
  unfold applyAll. revert r.
  induction snapshot as [|s snapshot IH]; intros r P; simpl; [assumption|].
  apply IH. apply applyUpdate_populated; [apply rowUpdate_nonblank|assumption].
Qed.

Lemma applyAll_hit (snapshot : list NodeRow) (r : NodeRow) :
  (exists s, In s snapshot /\ id s = id r /\ rowUpdate s <> NoUpdate) ->
  populated (applyAll snapshot r) = true.
Proof.
  revert r. induction snapshot as [|s snapshot IH]; intros r [s0 [I [E N]]].
  - destruct I.
  - change (applyAll (s :: snapshot) r)
      with (applyAll snapshot (applyUpdate (rowUpdate s) (id s) r)).
    destruct I as [->|I].
    + apply applyAll_populated. rewrite E.
      apply applyUpdate_hits; [apply rowUpdate_nonblank|assumption].
    + apply IH. exists s0. rewrite applyUpdate_id. auto.
Qed.

(** A row with the same address whose pair is at least as populated asks for
    no update once the first one did not. *)
Lemma rowUpdate_settled (r r' : NodeRow) :
  server_ip r' = server_ip r ->
  (populated r = true -> populated r' = true) ->
  rowUpdate r = NoUpdate -> rowUpdate r' = NoUpdate.
Proof.
  unfold rowUpdate, populated. intros E P. rewrite E.
  destruct (server_ip r) as [ip|]; [|reflexivity].
  destruct (isBlank ip); [reflexivity|].
  destruct (notBlank (server_ip_v4 r) || notBlank (server_ip_v6 r)).
  - rewrite P by reflexivity. reflexivity.
  - destruct (notBlank (server_ip_v4 r') || notBlank (server_ip_v6 r'));
      [reflexivity|]. auto.
Qed.

Lemma rowUpdate_populated (r : NodeRow) :
  populated r = true -> rowUpdate r = NoUpdate.
Proof.
  unfold rowUpdate, populated. intro P. rewrite P.
  destruct (server_ip r) as [ip|]; [|reflexivity].
  destruct (isBlank ip); reflexivity.
Qed.

Lemma loop_settles (snapshot : list NodeRow) (r : NodeRow) :
  In r snapshot -> rowUpdate (applyAll snapshot r) = NoUpdate.
Proof.
  intro I. destruct (rowUpdate r) eqn:U.
  - apply (rowUpdate_settled r); auto using applyAll_server_ip,
      applyAll_populated.
  - apply rowUpdate_populated, applyAll_hit. exists r. rewrite U.
    repeat split; auto; discriminate.
  - apply rowUpdate_populated, applyAll_hit. exists r. rewrite U.
    repeat split; auto; discriminate.
Qed.

Lemma applyUpdate_NoUpdate (k : Z) (r : NodeRow) : applyUpdate NoUpdate k r = r.
Proof. unfold applyUpdate. destruct (id r =? k); reflexivity. Qed.

Lemma loop_quiet (snapshot stored : list NodeRow) :
  (forall s, In s snapshot -> rowUpdate s = NoUpdate) ->
  fold_left loopStep snapshot stored = stored.
Proof.
  revert stored. induction snapshot as [|s snapshot IH]; intros stored Q; simpl;
    [reflexivity|].
  unfold loopStep at 2. rewrite (Q s) by (left; reflexivity).
  rewrite (map_ext _ (fun r => r)) by (intro; apply applyUpdate_NoUpdate).
  rewrite map_id. apply IH. intros s' I. apply Q. right. assumption.
Qed.

Lemma loop_idempotent (rs : list NodeRow) :
  let rs' := fold_left loopStep rs rs in
  fold_left loopStep rs' rs' = rs'.
Proof.
  intro rs'. apply loop_quiet. intros s I. subst rs'.
  rewrite loop_as_map in I. apply in_map_iff in I. destruct I as [r [<- I]].
  apply loop_settles. assumption.
Qed.

(** ** With unique keys every row gets its own decision *)

Lemma applyAll_miss (snapshot : list NodeRow) (r : NodeRow) :
  ~ In (id r) (map id snapshot) -> applyAll snapshot r = r.
Proof.
  unfold applyAll. revert r.
  induction snapshot as [|s snapshot IH]; intros r M; simpl; [reflexivity|].
  simpl in M. unfold applyUpdate at 2.
  destruct (Z.eqb_spec (id r) (id s)) as [E|E]; [exfalso; auto|].
  apply IH. auto.
Qed.

Lemma applyAll_own (snapshot : list NodeRow) (r : NodeRow) :
  NoDup (map id snapshot) -> In r snapshot ->
  applyAll snapshot r = backfilled r.
Proof.
  induction snapshot as [|s snapshot IH]; intros ND I; [destruct I|].
  simpl in ND. inversion ND as [|k ks Hk ND']; subst.
  change (applyAll (s :: snapshot) r)
    with (applyAll snapshot (applyUpdate (rowUpdate s) (id s) r)).
  destruct I as [->|I].
  - unfold backfilled. apply applyAll_miss. rewrite applyUpdate_id. assumption.
  - assert (E : id r <> id s).
    { intro E. apply Hk. rewrite <- E. apply in_map. assumption. }
    unfold applyUpdate at 1. destruct (Z.eqb_spec (id r) (id s)); [contradiction|].
    apply IH; assumption.
Qed.

Lemma backfilled_Backfill (r : NodeRow) : Backfill r (backfilled r).
Proof.
  unfold backfilled, applyUpdate. rewrite Z.eqb_refl.
  destruct (rowUpdate r) as [|v|v] eqn:U; unfold rowUpdate in U;
    (destruct (server_ip r) as [ip|] eqn:E;
     [|try discriminate U; apply BackfillNoAddress; rewrite E; reflexivity]);
    (destruct (isBlank ip) eqn:B;
     [try discriminate U; apply BackfillNoAddress; rewrite E; simpl; rewrite B;
      reflexivity|]);
    (destruct (notBlank (server_ip_v4 r) || notBlank (server_ip_v6 r)) eqn:P;
     [try discriminate U; apply BackfillPopulated; assumption|]);
    destruct (matches ipv4 (trim ip)) eqn:M;
    destruct (2 <=? countS isColon (trim ip)) eqn:C;
    try discriminate U.
  - apply (BackfillUnclassified r ip); auto. apply Z.leb_gt. assumption.
  - injection U as <-. rewrite <- E. apply (BackfillV4 r ip); assumption.
  - injection U as <-. rewrite <- E. apply (BackfillV4 r ip); assumption.
  - injection U as <-. rewrite <- E. apply (BackfillV6 r ip); auto.
    apply Z.leb_le. assumption.
Qed.

Lemma loop_Backfill (rs : list NodeRow) :
  NoDup (map id rs) -> Forall2 Backfill rs (fold_left loopStep rs rs).
Proof.
  intro ND. rewrite loop_as_map.
  assert (H : forall l, incl l rs -> Forall2 Backfill l (map (applyAll rs) l)).
  { induction l as [|r l IH]; intro I; simpl; constructor.
    - rewrite applyAll_own; [apply backfilled_Backfill|assumption|].
      apply I. left. reflexivity.
    - apply IH. intros x Hx. apply I. right. assumption. }
  apply H. apply incl_refl.
Qed.

Lemma loop_keys (rs : list NodeRow) :
  map id (fold_left loopStep rs rs) = map id rs /\
  map server_ip (fold_left loopStep rs rs) = map server_ip rs.
Proof.
  rewrite loop_as_map, !map_map. split; apply map_ext; intro r;
    [apply applyAll_id|apply applyAll_server_ip].
Qed.

(** ** The column step *)

Lemma elem_app (x : string) (l l' : list string) :
  elem x (l ++ l') = elem x l || elem x l'.
Proof. apply existsb_app. Qed.

Lemma elemFold_app (x : string) (l l' : list string) :
  elemFold x (l ++ l') = elemFold x l || elemFold x l'.
Proof. apply existsb_app. Qed.

Lemma getTableColumns_addColumn (c : string) (t : NodeTable) :
  isBlank c = false ->
  getTableColumns (addColumn c t) = getTableColumns t ++ [c].
Proof.
  intro B. unfold getTableColumns, addColumn. simpl.
  rewrite filter_app. simpl. rewrite B. reflexivity.
Qed.

Lemma backfill_columns (t : NodeTable) :
  columns (fst (backfillNodeDualStackColumns t)) = columns t.
Proof.
  unfold backfillNodeDualStackColumns. destruct (selectable t); reflexivity.
Qed.

Lemma backfill_idempotent (t : NodeTable) :
  backfillNodeDualStackColumns (fst (backfillNodeDualStackColumns t))
  = backfillNodeDualStackColumns t.
Proof.
  unfold backfillNodeDualStackColumns at 2 3.
  destruct (selectable t) eqn:S; simpl.
  - unfold backfillNodeDualStackColumns.
    change (selectable (mkNodeTable (columns t)
              (fold_left loopStep (rows t) (rows t)))) with (selectable t).
    rewrite S. cbn [columns rows]. rewrite loop_idempotent. reflexivity.
  - unfold backfillNodeDualStackColumns. rewrite S. reflexivity.
Qed.

(** Once both columns are declared the migration is the backfill alone. *)
Lemma ensure_when_declared (t : NodeTable) :
  elem "server_ip_v4" (getTableColumns t) = true ->
  elem "server_ip_v6" (getTableColumns t) = true ->
  ensureNodeDualStackColumns t = backfillNodeDualStackColumns t.
Proof.
  intros E4 E6. unfold ensureNodeDualStackColumns.
  destruct (getTableColumns t) as [|c cols] eqn:G; [discriminate E4|].
  unfold andThen, ensureColumnIfMissing. rewrite E4, E6. reflexivity.
Qed.

Lemma settled_after_backfill (t : NodeTable) :
  elem "server_ip_v4" (getTableColumns t) = true ->
  elem "server_ip_v6" (getTableColumns t) = true ->
  ensureNodeDualStackColumns (fst (backfillNodeDualStackColumns t))
  = backfillNodeDualStackColumns t.
Proof.
  intros E4 E6. rewrite ensure_when_declared.
  - apply backfill_idempotent.
  - unfold getTableColumns in *. rewrite backfill_columns. assumption.
  - unfold getTableColumns in *. rewrite backfill_columns. assumption.
Qed.

Lemma table_eta (t : NodeTable) : mkNodeTable (columns t ++ []) (rows t) = t.
Proof. destruct t. simpl. rewrite app_nil_r. reflexivity. Qed.

Lemma ensure_Run (t : NodeTable) : Run t (ensureNodeDualStackColumns t).
Proof.
  unfold ensureNodeDualStackColumns.
  destruct (getTableColumns t) as [|c0 cols0] eqn:G.
  { apply RunNoTable. assumption. }
  assert (NE : getTableColumns t <> []) by (rewrite G; discriminate).
  rewrite <- G. clear G c0 cols0.
  unfold andThen, ensureColumnIfMissing, alterTableAddColumn.
  destruct (elem "server_ip_v4" (getTableColumns t)) eqn:E4.
  - destruct (elem "server_ip_v6" (getTableColumns t)) eqn:E6.
    + replace (backfillNodeDualStackColumns t)
        with (backfillNodeDualStackColumns
                (mkNodeTable (columns t ++ []) (rows t)))
        by (rewrite table_eta; reflexivity).
      apply (RunBackfill t []); auto.
      * intros c [].
      * rewrite app_nil_r. assumption.
      * rewrite app_nil_r. assumption.
      * rewrite table_eta, app_nil_r. reflexivity.
    + destruct (elemFold "server_ip_v6" (columns t)) eqn:F6.
      * replace (t, Thrown)
          with (mkNodeTable (columns t ++ []) (rows t), Thrown)
          by (rewrite table_eta; reflexivity).
        apply (RunRefused6 t []); auto.
      * apply (RunBackfill t ["server_ip_v6"]); auto.
        -- intros c [<-|[]]. auto.
        -- rewrite elem_app, E4. reflexivity.
        -- rewrite elem_app, E6. reflexivity.
        -- apply (getTableColumns_addColumn "server_ip_v6" t). reflexivity.
  - destruct (elemFold "server_ip_v4" (columns t)) eqn:F4.
    + apply RunRefused4; assumption.
    + destruct (elem "server_ip_v6" (getTableColumns t)) eqn:E6.
      * apply (RunBackfill t ["server_ip_v4"]); auto.
        -- intros c [<-|[]]. auto.
        -- rewrite elem_app, E4. reflexivity.
        -- rewrite elem_app, E6. reflexivity.
        -- apply (getTableColumns_addColumn "server_ip_v4" t). reflexivity.
      * cbn [columns rows]. rewrite elemFold_app.
        change (elemFold "server_ip_v6" ["server_ip_v4"]) with false.
        rewrite orb_false_r.
        destruct (elemFold "server_ip_v6" (columns t)) eqn:F6.
        -- apply (RunRefused6 t ["server_ip_v4"]); auto.
        -- rewrite <- app_assoc.
           apply (RunBackfill t ["server_ip_v4"; "server_ip_v6"]); auto.
           ++ intros c [<-|[<-|[]]]; auto.
           ++ rewrite elem_app. apply orb_true_r.
           ++ rewrite elem_app. apply orb_true_r.
           ++ unfold getTableColumns. simpl. rewrite filter_app. reflexivity.
Qed.

Lemma ensure_unfold (t : NodeTable) :
  getTableColumns t <> [] ->
  ensureNodeDualStackColumns t
  = andThen (ensureColumnIfMissing (getTableColumns t) "server_ip_v4")
      (andThen (ensureColumnIfMissing (getTableColumns t) "server_ip_v6")
         backfillNodeDualStackColumns) t.
Proof.
  intro NE. unfold ensureNodeDualStackColumns.
  destruct (getTableColumns t); [congruence|reflexivity].
Qed.

Lemma Run_idempotent (t : NodeTable) (out : NodeTable * outcome) :
  Run t out -> ensureNodeDualStackColumns t = out ->
  ensureNodeDualStackColumns (fst out) = out.
Proof.
  intros R E. destruct R as [G|NE E4 F4|added NE A E6 F6|added NE A E4 E6 G];
    cbn [fst]; try assumption.
  - destruct A as [[-> _]|[-> F4]].
    + rewrite table_eta. rewrite table_eta in E. assumption.
    + change (mkNodeTable (columns t ++ ["server_ip_v4"]) (rows t))
        with (addColumn "server_ip_v4" t).
      assert (G : getTableColumns (addColumn "server_ip_v4" t)
                  = getTableColumns t ++ ["server_ip_v4"])
        by (apply getTableColumns_addColumn; reflexivity).
      rewrite ensure_unfold by (rewrite G; destruct (getTableColumns t); discriminate).
      rewrite G. unfold andThen, ensureColumnIfMissing, alterTableAddColumn.
      rewrite !elem_app, E6.
      change (elem "server_ip_v4" ["server_ip_v4"]) with true.
      change (elem "server_ip_v6" ["server_ip_v4"]) with false.
      rewrite orb_true_r. cbn [orb addColumn columns].
      rewrite elemFold_app, F6. reflexivity.
  - rewrite <- G in E4, E6.
    rewrite (settled_after_backfill _ E4 E6). reflexivity.
Qed.

(** C9.  The migration that runs when the store is opened is idempotent and
    additive.  For every node table [t], with [t'] the table after one run
    and [res] how the run ended:
    - running it again on [t'] leaves [t'] as it is and ends the same way;
    - the declared columns of [t'] are those of [t] followed by the columns
      added, which are among server_ip_v4 and server_ip_v6 and were not
      declared in [t]; after a normal run on an existing table both are
      declared;
    - no row is added, dropped or re-keyed and server_ip is never written;
      a run that throws, or finds no table, leaves every row as it was;
    - with unique keys, a normal run relates every row to its successor by
      [Backfill]: only a row with a non-blank server_ip and both new columns
      blank is written, v4 on an IPv4 pattern match, v6 on two colons or
      more, nothing otherwise; in particular a populated row is never
      overwritten. *)
Theorem dual_stack_migration_idempotent (t : NodeTable) :
  let t' := fst (ensureNodeDualStackColumns t) in
  let res := snd (ensureNodeDualStackColumns t) in
  ensureNodeDualStackColumns t' = (t', res) /\
  (exists added,
     columns t' = columns t ++ added /\
     forall c, In c added ->
       (c = "server_ip_v4" \/ c = "server_ip_v6") /\
       elemFold c (columns t) = false) /\
  (res = Returned -> getTableColumns t <> [] ->
     elem "server_ip_v4" (getTableColumns t') = true /\
     elem "server_ip_v6" (getTableColumns t') = true) /\
  map id (rows t') = map id (rows t) /\
  map server_ip (rows t') = map server_ip (rows t) /\
  (res = Thrown \/ getTableColumns t = [] -> rows t' = rows t) /\
  (NoDup (map id (rows t)) -> res = Returned -> getTableColumns t <> [] ->
     Forall2 Backfill (rows t) (rows t') /\
     forall r r', In (r, r') (combine (rows t) (rows t')) ->
       populated r = true -> r' = r).
Proof.
  intros t' res.
  pose proof (ensure_Run t) as R.
  pose proof (Run_idempotent t _ R eq_refl) as I.
  subst t' res.
  destruct (ensureNodeDualStackColumns t) as [t' res] eqn:E. cbn [fst snd] in *.
  split; [assumption|]. clear I.
  inversion R as [G Ho|NE E4 F4 Ho|added NE A E6 F6 Ho|added NE A E4 E6 G Ho];
    subst.
  - (* no table *)
    refine (conj _ (conj _ (conj _ (conj _ (conj _ _))))).
    + exists []. rewrite app_nil_r. split; [reflexivity|]. intros c [].
    + intros _ NE. contradiction.
    + reflexivity.
    + reflexivity.
    + reflexivity.
    + intros _ _ NE. contradiction.
  - (* ALTER for v4 refused *)
    refine (conj _ (conj _ (conj _ (conj _ (conj _ _))))).
    + exists []. rewrite app_nil_r. split; [reflexivity|]. intros c [].
    + intro D. discriminate D.
    + reflexivity.
    + reflexivity.
    + reflexivity.
    + intros _ D. discriminate D.
  - (* ALTER for v6 refused *)
    refine (conj _ (conj _ (conj _ (conj _ (conj _ _))))).
    + exists added. split; [reflexivity|].
      destruct A as [[-> _]|[-> F4]]; intros c Hc; [destruct Hc|].
      destruct Hc as [<-|[]]. auto.
    + intro D. discriminate D.
    + reflexivity.
    + reflexivity.
    + reflexivity.
    + intros _ D. discriminate D.
  - (* backfill reached *)
    unfold backfillNodeDualStackColumns in Ho.
    destruct (selectable (mkNodeTable (columns t ++ added) (rows t))) eqn:S;
      injection Ho as <- <-; cbn [columns rows].
    + pose proof (loop_keys (rows t)) as [K1 K2].
      refine (conj _ (conj _ (conj _ (conj _ (conj _ _))))).
      * exists added. auto.
      * intros _ _. unfold getTableColumns in *. cbn [columns] in *.
        rewrite G. auto.
      * assumption.
      * assumption.
      * intros [D|D]; [discriminate D|contradiction].
      * intros ND _ _.
        assert (F : Forall2 Backfill (rows t)
                      (fold_left loopStep (rows t) (rows t)))
          by (apply loop_Backfill; assumption).
        split; [assumption|].
        intros r r' Hin P.
        revert Hin. generalize (fold_left loopStep (rows t) (rows t)) F.
        generalize (rows t). clear - P.
        intros l l' F. induction F as [|x y l l' B F IH]; simpl; [tauto|].
        intros [Hin|Hin]; [|auto].
        injection Hin as -> ->.
        destruct B; try reflexivity; congruence.
    + refine (conj _ (conj _ (conj _ (conj _ (conj _ _))))).
      * exists added. auto.
      * intro D. discriminate D.
      * reflexivity.
      * reflexivity.
      * reflexivity.
      * intros _ D. discriminate D.
Qed.

(** The legacy store: both columns are added, the IPv4 row and the IPv6 row
    are split, the host name and the row without address stay blank; a
    second run finds nothing to do. *)
Example legacy_store_first_run :
  ensureNodeDualStackColumns legacyTable = (migratedTable, Returned).
Proof. vm_compute. reflexivity. Qed.

Example legacy_store_second_run :
  ensureNodeDualStackColumns migratedTable = (migratedTable, Returned).
Proof. vm_compute. reflexivity. Qed.

(** A column that differs from server_ip_v6 by case only makes ALTER TABLE
    throw after server_ip_v4 went in; the next run stops at the same place. *)
Example mixed_case_column_run :
  let t := mkNodeTable ["id"; "server_ip"; "SERVER_IP_V6"] [] in
  let t1 := mkNodeTable ["id"; "server_ip"; "SERVER_IP_V6"; "server_ip_v4"] [] in
  ensureNodeDualStackColumns t = (t1, Thrown) /\
  ensureNodeDualStackColumns t1 = (t1, Thrown).
Proof. vm_compute. split; reflexivity. Qed.

Lemma legacy_keys_unique : NoDup (map id (rows legacyTable)).
Proof.
  simpl. repeat constructor; simpl; intuition discriminate.
Qed.

Lemma dual_stack_migration_witness :
  NoDup (map id (rows legacyTable)) /\
  Forall2 Backfill (rows legacyTable)
    (rows (fst (ensureNodeDualStackColumns legacyTable))).
Proof.
  split; [exact legacy_keys_unique|].
  pose proof (dual_stack_migration_idempotent legacyTable) as H.
  cbv zeta in H. destruct H as (_ & _ & _ & _ & _ & _ & H).
  apply H.
  - exact legacy_keys_unique.
  - vm_compute. reflexivity.
  - vm_compute. discriminate.
Defined.

(** X3.  After a normal run on an existing table no row is left that the
    backfill would still write: every row lacks an address, is populated, or
    carries an address that is neither an IPv4 literal nor holds two
    colons.  Key uniqueness is not needed. *)
Theorem backfill_leaves_no_work (t : NodeTable) (r : NodeRow) :
  snd (ensureNodeDualStackColumns t) = Returned ->
  getTableColumns t <> [] ->
  In r (rows (fst (ensureNodeDualStackColumns t))) ->
  rowUpdate r = NoUpdate.
Proof.
  intros Ret NE I. pose proof (ensure_Run t) as R.
  destruct (ensureNodeDualStackColumns t) as [t' res] eqn:E.
  cbn [fst snd] in *. subst res.
  inversion R as [G Ho|NE4 E4 F4 Ho|added NE6 A E6 F6 Ho
                 |added NEb A E4 E6 G Ho]; subst; try contradiction.
  unfold backfillNodeDualStackColumns in Ho.
  destruct (selectable (mkNodeTable (columns t ++ added) (rows t)));
    [|discriminate Ho].
  injection Ho as <-. cbn [rows] in I.
  rewrite loop_as_map in I. apply in_map_iff in I.
  destruct I as [r0 [<- I]]. apply loop_settles. assumption.
Qed.

Lemma backfill_leaves_no_work_witness :
  rowUpdate (mkNodeRow 3 (Some "panel.example.com") None None) = NoUpdate.
Proof.
  apply (backfill_leaves_no_work legacyTable).
  - vm_compute. reflexivity.
  - vm_compute. discriminate.
  - vm_compute. right. right. left. reflexivity.
Defined.

End SQLiteConfigFacts.


(* ===================================================================== *)
(** * SQLiteConfig.java: when the migration throws *)
(* ===================================================================== *)

Module SQLiteStartFacts.

Import Text SQLiteConfig SQLiteConfigFacts.

Local Open Scope list_scope.

Lemma eqbFold_refl (x : string) : eqbFold x x = true.
Proof. apply String.eqb_refl. Qed.

Lemma elem_elemFold (x : string) (l : list string) :
  elem x l = true -> elemFold x l = true.
Proof.
  unfold elem, elemFold. intro H. apply existsb_exists in H.
  destruct H as [y [I E]]. apply String.eqb_eq in E. subst y.
  apply existsb_exists. exists x. split; [assumption|apply eqbFold_refl].
Qed.

Lemma elem_getTableColumns (x : string) (t : NodeTable) :
  elem x (getTableColumns t) = true -> elemFold x (columns t) = true.
Proof.
  unfold getTableColumns, elem. intro H. apply existsb_exists in H.
  destruct H as [y [I E]]. apply filter_In in I. destruct I as [I _].
  apply elem_elemFold. apply existsb_exists. exists y. auto.
Qed.

(** Evaluates the column tests the run meets, from the facts in the
    context about the table as it was found. *)
Ltac settle_columns :=
  repeat (progress cbn [columns rows fst snd andb orb]
          || rewrite elemFold_app
          || match goal with
             | H : elemFold _ _ = _ |- _ => rewrite H
             | |- context [elemFold ?x [?y]] =>
                 let b := eval vm_compute in (elemFold x [y]) in
                 change (elemFold x [y]) with b
             end).

(** X15.  The migration throws, and with it the start of the application
    fails, in exactly these cases: the node table exists and either one of
    the two new columns is declared under another spelling of its name (so
    that the exact-case lookup misses it and ALTER TABLE refuses the
    duplicate), or the table has no id column, or no server_ip column. *)
Theorem dual_stack_migration_throws_iff (t : NodeTable) :
  snd (ensureNodeDualStackColumns t) = Thrown <->
  getTableColumns t <> [] /\
  (elem "server_ip_v4" (getTableColumns t) = false /\
   elemFold "server_ip_v4" (columns t) = true
   \/ elem "server_ip_v6" (getTableColumns t) = false /\
      elemFold "server_ip_v6" (columns t) = true
   \/ elemFold "id" (columns t) = false
   \/ elemFold "server_ip" (columns t) = false).
Proof.
  unfold ensureNodeDualStackColumns.
  destruct (getTableColumns t) as [|c0 cols] eqn:G.
  - cbn. split; [discriminate|]. intros [NE _]. contradiction.
  - rewrite <- G.
    pose proof (elem_getTableColumns "server_ip_v4" t) as H4.
    pose proof (elem_getTableColumns "server_ip_v6" t) as H6.
    assert (NE : getTableColumns t <> []) by (rewrite G; discriminate).
    unfold andThen, ensureColumnIfMissing, alterTableAddColumn,
      backfillNodeDualStackColumns, selectable, selectColumns.
    cbn [forallb].
    destruct (elem "server_ip_v4" (getTableColumns t)) eqn:E4;
      destruct (elemFold "server_ip_v4" (columns t)) eqn:F4;
      try (specialize (H4 eq_refl); discriminate H4);
      destruct (elem "server_ip_v6" (getTableColumns t)) eqn:E6;
      destruct (elemFold "server_ip_v6" (columns t)) eqn:F6;
      try (specialize (H6 eq_refl); discriminate H6);
      destruct (elemFold "id" (columns t)) eqn:Fi;
      destruct (elemFold "server_ip" (columns t)) eqn:Fs;
      settle_columns;
      (split;
       [ intro H; first [discriminate H | (split; [exact NE|auto 6])]
       | intros [_ [[D1 D2]|[[D1 D2]|[D|D]]]]; congruence ]).
Qed.

(** A table with the column under an upper-case name makes the run throw
    before anything is written; the legacy table does not. *)
Example dual_stack_migration_throws_samples :
  ensureNodeDualStackColumns
    (mkNodeTable ["id"; "server_ip"; "SERVER_IP_V4"]
       [mkNodeRow 1 (Some "10.0.0.1") None None])
  = (mkNodeTable ["id"; "server_ip"; "SERVER_IP_V4"]
       [mkNodeRow 1 (Some "10.0.0.1") None None], Thrown)
  /\ snd (ensureNodeDualStackColumns
            (mkNodeTable ["name"; "server_ip"] [])) = Thrown
  /\ snd (ensureNodeDualStackColumns legacyTable) = Returned.
Proof. vm_compute. repeat split. Qed.

End SQLiteStartFacts.


(* ===================================================================== *)
(** * Facts about the flow upload endpoint *)
(* ===================================================================== *)

Module HandlerFacts.

Import Text Store Handler.
Local Open Scope list_scope.

Lemma NodeExistsBySecret_false (repo : Repository) (secret : string) :
  (forall n, In n (nodes repo) -> node_secret n <> secret) ->
  NodeExistsBySecret repo secret = false.
Proof.
  unfold NodeExistsBySecret. intro H.
  induction (nodes repo) as [|n ns IH]; simpl; [reflexivity|].
  rewrite IH by (intros m Hm; apply H; right; assumption).
  rewrite orb_false_r. apply String.eqb_neq. apply H. left. reflexivity.
Qed.

Section FlowUploadFacts.

Variable AddFlow : Z -> Z -> Z -> Z -> Z -> Repository -> Repository.
Variable TrimSpace : string -> string.
Variable unmarshalWrap : string -> option flowWrap.
Variable unmarshalItems : string -> option (list flowItem).
Variable aesDecrypt : string -> string -> option string.

Let upload : Repository -> Request -> Repository * Response :=
  flowUpload AddFlow TrimSpace unmarshalWrap unmarshalItems aesDecrypt.

Lemma flowUpload_response (repo : Repository) (r : Request) :
  snd (upload repo r) = okText.
Proof.
  unfold upload, flowUpload.
  destruct (negb (NodeExistsBySecret repo (query_secret r))); reflexivity.
Qed.

(** C10.  A request to /flow/upload whose [secret] is the secret of no
    stored node leaves the store exactly as it was (no counter and no other
    row changes) and is answered with the text/plain body "ok"; every
    request, whatever its secret, its body and the store it meets, gets
    that same response, so the response does not tell whether the secret
    was valid. *)
Theorem flowUpload_unknown_secret (repo : Repository) (r : Request) :
  (forall n, In n (nodes repo) -> node_secret n <> query_secret r) ->
  upload repo r = (repo, okText) /\
  written okText = "ok" /\
  forall (repo' : Repository) (r' : Request),
    snd (upload repo' r') = snd (upload repo r).
Proof.
  intro H. split; [|split; [reflexivity|]].
  - unfold upload, flowUpload.
    rewrite (NodeExistsBySecret_false repo (query_secret r) H). reflexivity.
  - intros repo' r'. rewrite !flowUpload_response. reflexivity.
Qed.

(** A name whose first part is not a decimal integer never reaches
    [AddFlow]. *)
Lemma flowUploadItem_first_part (repo : Repository) (item : flowItem) :
  ParseInt (nth_part (Split (N item) "_") 0) = None ->
  flowUploadItem AddFlow repo item = repo.
Proof.
  intro H. unfold flowUploadItem. rewrite H.
  destruct ((Z.of_nat (List.length (Split (N item) "_")) <? 3)
            || String.eqb (N item) "web_api"); reflexivity.
Qed.

(** Every canonical federation service name, fed_svc_<runtimeId>, is
    skipped by the loop of [flowUpload]. *)
Lemma flowUploadItem_fed_svc (repo : Repository) (suffix : string) (u d : Z) :
  flowUploadItem AddFlow repo (mkFlowItem ("fed_svc_" ++ suffix) u d) = repo.
Proof.
  apply flowUploadItem_first_part. cbn [N].
  change ("fed_svc_" ++ suffix)%string
    with (String "f" (String "e" (String "d" (String "_"
           (String "s" (String "v" (String "c" (String "_" suffix)))))))).
  cbn - [ParseInt]. destruct (Split suffix "_"); reflexivity.
Qed.

(** ** Names of the form digits_digits_digits are credited *)

Lemma digit_not_separator (c : ascii) :
  isDigit c = true -> Ascii.eqb c "_" = false.
Proof.
  destruct c as [[] [] [] [] [] [] [] []]; intro H; vm_compute in H;
    try discriminate H; reflexivity.
Qed.

Lemma Split_digits_then (a rest : string) :
  forallS isDigit a = true ->
  Split (a ++ String "_" rest) "_" = a :: Split rest "_".
Proof.
  induction a as [|c a IH]; intro H; [reflexivity|].
  simpl in H. apply andb_true_iff in H. destruct H as [Hc Ha].
  change (String c a ++ String "_" rest)%string
    with (String c (a ++ String "_" rest)).
  cbn [Split]. rewrite (digit_not_separator c Hc), (IH Ha). reflexivity.
Qed.

Lemma Split_digits (a : string) :
  forallS isDigit a = true -> Split a "_" = [a].
Proof.
  induction a as [|c a IH]; intro H; [reflexivity|].
  simpl in H. apply andb_true_iff in H. destruct H as [Hc Ha].
  cbn [Split]. rewrite (digit_not_separator c Hc), (IH Ha). reflexivity.
Qed.

Lemma digitsValue_lower_bound (s : string) :
  forallS isDigit s = true -> forall acc, 0 <= acc -> 0 <= digitsValue acc s.
Proof.
  induction s as [|c s IH]; intros H acc Hacc; [assumption|].
  simpl in H. apply andb_true_iff in H. destruct H as [Hc Hs].
  cbn [digitsValue]. apply (IH Hs).
  unfold isDigit in Hc. apply andb_true_iff in Hc. rewrite !Z.leb_le in Hc.
  lia.
Qed.

Lemma unsignedDecimal_digits (s : string) (v : Z) :
  unsignedDecimal s = Some v ->
  s <> EmptyString /\ forallS isDigit s = true /\ 0 <= v.
Proof.
  unfold unsignedDecimal. destruct s as [|c s]; [discriminate|].
  destruct (forallS isDigit (String c s)) eqn:F; [|discriminate].
  intro H. injection H as <-. split; [discriminate|]. split; [reflexivity|].
  change (0 <= digitsValue 0 (String c s)).
  apply digitsValue_lower_bound; [assumption|lia].
Qed.

Lemma ParseInt_unsigned (s : string) (v : Z) :
  unsignedDecimal s = Some v -> v < 2 ^ 63 -> ParseInt s = Some v.
Proof.
  intros H B. destruct (unsignedDecimal_digits s v H) as [NE [F P]].
  unfold ParseInt.
  assert (E : match s with
              | String "+" s' => unsignedDecimal s'
              | String "-" s' => option_map Z.opp (unsignedDecimal s')
              | _ => unsignedDecimal s
              end = Some v).
  { destruct s as [|c s']; [congruence|].
    simpl in F. apply andb_true_iff in F. destruct F as [Fc _].
    destruct c as [[] [] [] [] [] [] [] []]; vm_compute in Fc;
      try discriminate Fc; exact H. }
  rewrite E.
  replace ((- 2 ^ 63 <=? v) && (v <=? 2 ^ 63 - 1)) with true; [reflexivity|].
  symmetry. apply andb_true_iff. rewrite !Z.leb_le. lia.
Qed.

Lemma digits_not_web_api (a rest : string) :
  a <> EmptyString -> forallS isDigit a = true ->
  String.eqb (a ++ rest) "web_api" = false.
Proof.
  intros NE F. destruct a as [|c a]; [congruence|].
  simpl in F. apply andb_true_iff in F. destruct F as [Fc _].
  apply String.eqb_neq. intro E. injection E as Ec _. subst c.
  vm_compute in Fc. discriminate Fc.
Qed.

(** X1.  The loop of [flowUpload] credits an item whose name is three runs of
    decimal digits joined by underscores (the canonical name of a local
    forward, forwardId_userId_userTunnelId, each below 2^63) with exactly
    one call AddFlow(forwardId, userId, userTunnelId, d, u). *)
Theorem flowUpload_credits_forward_name
    (repo : Repository) (a b c : string) (f u t up down : Z) :
  unsignedDecimal a = Some f -> unsignedDecimal b = Some u ->
  unsignedDecimal c = Some t ->
  f < 2 ^ 63 -> u < 2 ^ 63 -> t < 2 ^ 63 ->
  flowUploadItem AddFlow repo
    (mkFlowItem (a ++ String "_" (b ++ String "_" c)) up down)
  = AddFlow f u t down up repo.
Proof.
  intros Ha Hb Hc Bf Bu Bt.
  destruct (unsignedDecimal_digits a f Ha) as [NEa [Fa _]].
  destruct (unsignedDecimal_digits b u Hb) as [_ [Fb _]].
  destruct (unsignedDecimal_digits c t Hc) as [_ [Fc _]].
  unfold flowUploadItem. cbn [N U D].
  rewrite (Split_digits_then a _ Fa), (Split_digits_then b _ Fb),
    (Split_digits c Fc).
  rewrite (digits_not_web_api a _ NEa Fa).
  cbn [List.length nth_part nth Z.of_nat Z.ltb orb].
  change (Z.of_nat 3 <? 3) with false. cbn [orb].
  rewrite (ParseInt_unsigned a f Ha Bf), (ParseInt_unsigned b u Hb Bu),
    (ParseInt_unsigned c t Hc Bt).
  reflexivity.
Qed.

(** X2.  readAndDecryptFlowBody on a body that could be read never returns
    an error, and what it returns is settled case by case:
    - a blank body gives the empty string;
    - a body that is not blank and decodes to a wrapper marked encrypted,
      with data that is not blank and decrypts under the secret, gives the
      decrypted text, as it is;
    - every other body that is not blank (not a wrapper, not marked
      encrypted, blank data, or data that does not decrypt) gives the
      trimmed body. *)
Theorem readAndDecryptFlowBody_falls_back (raw secret : string) :
  let out :=
    readAndDecryptFlowBody TrimSpace unmarshalWrap aesDecrypt (Some raw)
      secret in
  out <> None /\
  (TrimSpace raw = "" -> out = Some "") /\
  (forall wrap plain,
     TrimSpace raw <> "" ->
     unmarshalWrap raw = Some wrap -> Encrypted wrap = true ->
     TrimSpace (Data wrap) <> "" ->
     aesDecrypt secret (Data wrap) = Some plain ->
     out = Some plain) /\
  (TrimSpace raw <> "" ->
   (forall wrap,
      unmarshalWrap raw = Some wrap ->
      Encrypted wrap = false \/ TrimSpace (Data wrap) = ""
      \/ aesDecrypt secret (Data wrap) = None) ->
   out = Some (TrimSpace raw)).
Proof.
  cbv zeta. unfold readAndDecryptFlowBody.
  destruct (String.eqb_spec (TrimSpace raw) "") as [E|E].
  { refine (conj _ (conj _ (conj _ _))); try discriminate; try reflexivity;
      intros; contradiction. }
  destruct (unmarshalWrap raw) as [wrap|] eqn:W.
  2:{ refine (conj _ (conj _ (conj _ _))); try discriminate; try reflexivity;
        intros; try contradiction; discriminate. }
  destruct (Encrypted wrap) eqn:En; cbn [negb orb].
  2:{ refine (conj _ (conj _ (conj _ _))); try discriminate; try reflexivity.
      - intros; contradiction.
      - intros w plain _ Hw He. injection Hw as <-. congruence. }
  destruct (String.eqb_spec (TrimSpace (Data wrap)) "") as [Ed|Ed].
  { refine (conj _ (conj _ (conj _ _))); try discriminate; try reflexivity.
    - intros; contradiction.
    - intros w plain _ Hw _ Hd. injection Hw as <-. contradiction. }
  destruct (aesDecrypt secret (Data wrap)) as [plain|] eqn:Dec.
  - refine (conj _ (conj _ (conj _ _))); try discriminate.
    + intros; contradiction.
    + intros w plain' _ Hw _ _ Hp. injection Hw as <-. congruence.
    + intros _ H. destruct (H wrap eq_refl) as [H'|[H'|H']];
        [congruence|contradiction|congruence].
  - refine (conj _ (conj _ (conj _ _))); try discriminate; try reflexivity.
    + intros; contradiction.
    + intros w plain _ Hw _ _ Hp. injection Hw as <-. congruence.
Qed.

(** The loop of [flowUpload] on an item named after a federation service,
    on the store of the Go test of the flow policy: "fed_svc_17" splits
    into fed, svc and 17, "fed" is no number and the loop moves on.  No row
    changes: this upload path does no accounting for peer shares. *)
Theorem flowUpload_skips_peer_share_item :
  let repo' := flowUploadItem AddFlow flowRepo fedItem in
  repo' = flowRepo /\
  option_map current_flow (GetPeerShare repo' 1) = Some 1000 /\
  option_map is_active (GetPeerShare repo' 1) = Some 1 /\
  option_map runtime_status (GetPeerShareRuntimeByID repo' 17) = Some 1.
Proof.
  cbv zeta.
  assert (E : flowUploadItem AddFlow flowRepo fedItem = flowRepo)
    by (apply (flowUploadItem_fed_svc flowRepo "17" 1200 900)).
  rewrite E. repeat split; reflexivity.
Qed.

End FlowUploadFacts.

(** The scenario seen from the endpoint: the node's secret is valid, the
    body decodes to the one federation item, and the store is unchanged,
    while a forward item does reach [AddFlow]. *)
Example flowUpload_fed_item_end_to_end :
  sampleUpload flowRepo (mkRequest "flow-node-secret" (Some "fed"))
  = (flowRepo, okText) /\
  sampleUpload flowRepo (mkRequest "flow-node-secret" (Some "forward"))
  = (wipingAddFlow 12 34 56 9 7 flowRepo, okText).
Proof. vm_compute. split; reflexivity. Qed.

Lemma flowUpload_unknown_secret_witness :
  sampleUpload flowRepo (mkRequest "not-a-node-secret" (Some "forward"))
  = (flowRepo, okText).
Proof.
  apply (flowUpload_unknown_secret wipingAddFlow (fun s => s)
           (fun _ => None) sampleItems (fun _ _ => None)
           flowRepo (mkRequest "not-a-node-secret" (Some "forward"))).
  intros n [<-|[]]. vm_compute. discriminate.
Defined.

Lemma flowUpload_credits_forward_name_witness :
  flowUploadItem wipingAddFlow flowRepo (mkFlowItem "12_34_56" 7 9)
  = wipingAddFlow 12 34 56 9 7 flowRepo.
Proof.
  apply (flowUpload_credits_forward_name wipingAddFlow flowRepo
           "12" "34" "56" 12 34 56 7 9); vm_compute; reflexivity.
Defined.

Lemma readAndDecryptFlowBody_falls_back_witness :
  readAndDecryptFlowBody (fun s => s)
    (fun raw => if String.eqb raw "sealed"
                then Some (mkFlowWrap true "cipher" 0) else None)
    (fun secret data =>
       if String.eqb secret "flow-node-secret" && String.eqb data "cipher"
       then Some "opened" else None)
    (Some "sealed") "flow-node-secret"
  = Some "opened".
Proof.
  pose proof (readAndDecryptFlowBody_falls_back (fun s => s)
                (fun raw => if String.eqb raw "sealed"
                            then Some (mkFlowWrap true "cipher" 0) else None)
                (fun secret data =>
                   if String.eqb secret "flow-node-secret"
                      && String.eqb data "cipher"
                   then Some "opened" else None)
                "sealed" "flow-node-secret") as H.
  cbv zeta in H. destruct H as [_ [_ [H _]]].
  apply (H (mkFlowWrap true "cipher" 0) "opened");
    first [reflexivity | discriminate].
Defined.

End HandlerFacts.


(* ===================================================================== *)
(** * Facts about peer-share port picking *)
(* ===================================================================== *)

Module FederationFacts.

Import Text Store Federation.
Local Open Scope list_scope.

Lemma portInUse_Occupied (repo : Repository) (nodeId port : Z) :
  portInUse repo nodeId port = true <-> Occupied repo nodeId port.
Proof.
  unfold portInUse, Occupied. rewrite !orb_true_iff, !existsb_exists. split.
  - intros [[[r [I H]]|[c [I H]]]|[f [I H]]].
    + left. exists r. rewrite !andb_true_iff, !Z.eqb_eq in H. tauto.
    + right. left. exists c. rewrite !andb_true_iff, !Z.eqb_eq in H. tauto.
    + right. right. exists f. rewrite !andb_true_iff, !Z.eqb_eq in H. tauto.
  - intros [[r [I [S [Nd P]]]]|[[c [I [Nd P]]]|[f [I [Nd P]]]]].
    + left. left. exists r. rewrite !andb_true_iff, !Z.eqb_eq. tauto.
    + left. right. exists c. rewrite !andb_true_iff, !Z.eqb_eq. tauto.
    + right. exists f. rewrite !andb_true_iff, !Z.eqb_eq. tauto.
Qed.

Lemma portInUse_free (repo : Repository) (nodeId port : Z) :
  portInUse repo nodeId port = false <-> ~ Occupied repo nodeId port.
Proof.
  rewrite <- portInUse_Occupied. destruct (portInUse repo nodeId port);
    split; congruence.
Qed.

(** The scan returns the first free port of the window and nothing else. *)
Lemma firstFreePort_found (repo : Repository) (nodeId : Z) (count : nat) :
  forall port found,
    firstFreePort repo nodeId port count = Some found ->
    port <= found < port + Z.of_nat count /\
    portInUse repo nodeId found = false /\
    forall q, port <= q < found -> portInUse repo nodeId q = true.
Proof.
  induction count as [|count IH]; intros port found H; [discriminate H|].
  cbn [firstFreePort] in H.
  destruct (portInUse repo nodeId port) eqn:B.
  - apply IH in H. destruct H as [R [F L]].
    split; [lia|]. split; [assumption|].
    intros q Hq. destruct (Z.eq_dec q port) as [->|Nq]; [assumption|].
    apply L. lia.
  - injection H as <-. split; [lia|]. split; [assumption|]. intros q Hq. lia.
Qed.

Lemma firstFreePort_exhausted (repo : Repository) (nodeId : Z) (count : nat) :
  forall port,
    firstFreePort repo nodeId port count = None ->
    forall q, port <= q < port + Z.of_nat count ->
              portInUse repo nodeId q = true.
Proof.
  induction count as [|count IH]; intros port H q Hq; [lia|].
  cbn [firstFreePort] in H.
  destruct (portInUse repo nodeId port) eqn:B; [|discriminate H].
  destruct (Z.eq_dec q port) as [->|Nq]; [assumption|].
  apply (IH (port + 1)); [assumption|lia].
Qed.

(** C1.  For every store, every share and every reservation request:
    - with requested port 0, a port that is picked lies in the share's range,
      occurs in no active (status = 1) runtime row, no chain_tunnel row and
      no forward_port row of the share's node, and every lower port of the
      range does occur in one; a port is picked whenever the range holds a
      free one;
    - with a requested port other than 0 that is occupied by one of the
      three row kinds, the operation fails and returns no port; when it does
      return, it returns the requested port, which lies in the range and is
      free. *)
Theorem pickPeerSharePort_lowest_free (repo : Repository) (share : PeerShare) :
  let node := share_node_id share in
  let lo := port_range_start share in
  let hi := port_range_end share in
  (forall port,
     pickPeerSharePort repo share 0 = Some port ->
     lo <= port <= hi /\ ~ Occupied repo node port /\
     forall q, lo <= q < port -> Occupied repo node q) /\
  (forall q, lo <= q <= hi -> ~ Occupied repo node q ->
     exists port, pickPeerSharePort repo share 0 = Some port) /\
  (forall requested,
     requested <> 0 -> Occupied repo node requested ->
     pickPeerSharePort repo share requested = None) /\
  (forall requested port,
     requested <> 0 -> pickPeerSharePort repo share requested = Some port ->
     port = requested /\ lo <= port <= hi /\ ~ Occupied repo node port).
Proof.
  intros node lo hi. unfold pickPeerSharePort. fold node lo hi.
  refine (conj _ (conj _ (conj _ _))).
  - intros port H. cbn [Z.eqb] in H.
    apply firstFreePort_found in H. destruct H as [R [F L]].
    split; [lia|]. split; [apply portInUse_free; assumption|].
    intros q Hq. apply portInUse_Occupied. apply L. assumption.
  - intros q Hq Free. cbn [Z.eqb].
    destruct (firstFreePort repo node lo (Z.to_nat (hi - lo + 1))) as [p|] eqn:E.
    + exists p. reflexivity.
    + exfalso. apply Free. apply portInUse_Occupied.
      apply (firstFreePort_exhausted _ _ _ _ E). lia.
  - intros requested NZ Occ. apply Z.eqb_neq in NZ. rewrite NZ.
    apply portInUse_Occupied in Occ. rewrite Occ.
    rewrite andb_false_r. reflexivity.
  - intros requested port NZ H. apply Z.eqb_neq in NZ. rewrite NZ in H.
    destruct ((lo <=? requested) && (requested <=? hi)
              && negb (portInUse repo node requested)) eqn:B; [|discriminate H].
    injection H as <-. rewrite !andb_true_iff, !Z.leb_le, negb_true_iff in B.
    destruct B as [[B1 B2] B3]. split; [reflexivity|]. split; [lia|].
    apply portInUse_free. assumption.
Qed.

(** TestPickPeerSharePortUsesRuntimeReservations: ports 3000, 3001 and 3002
    are taken, so the automatic pick is 3003 and asking for 3001 fails. *)
Example pick_auto_port_test :
  pickPeerSharePort pickRepo pickShare 0 = Some 3003.
Proof. vm_compute. reflexivity. Qed.

Example pick_busy_port_test :
  pickPeerSharePort pickRepo pickShare 3001 = None.
Proof. vm_compute. reflexivity. Qed.

Lemma pickPeerSharePort_witness :
  3000 <= 3003 <= 3004 /\ ~ Occupied pickRepo 1 3003 /\
  forall q, 3000 <= q < 3003 -> Occupied pickRepo 1 q.
Proof.
  pose proof (pickPeerSharePort_lowest_free pickRepo pickShare) as H.
  cbv zeta in H. destruct H as (H & _).
  apply (H 3003). vm_compute. reflexivity.
Defined.

End FederationFacts.

(* ===================================================================== *)
(** * Facts about the forward control service names *)
(* ===================================================================== *)

Module ForwardControlFacts.

Import Text ForwardControl.
Local Open Scope list_scope.

(** ** Character codes and case *)

Lemma code_eq_inv (a b : ascii) : code a = code b -> a = b.
Proof.
  unfold code. intro H. apply N2Z.inj in H.
  rewrite <- (ascii_N_embedding a), <- (ascii_N_embedding b), H. reflexivity.
Qed.

Lemma code_lowerChar (c : ascii) :
  code (lowerChar c)
  = if (65 <=? code c) && (code c <=? 90) then code c + 32 else code c.
Proof.
  unfold lowerChar.
  destruct ((65 <=? code c) && (code c <=? 90)) eqn:U; [|reflexivity].
  apply andb_true_iff in U. destruct U as [U1 U2].
  apply Z.leb_le in U1, U2.
  unfold code at 1. rewrite N_ascii_embedding by lia. lia.
Qed.

Lemma lowerChar_sameLetter (a b : ascii) :
  lowerChar a = lowerChar b <-> sameLetter a b.
Proof.
  unfold sameLetter. split.
  - intro H. apply (f_equal code) in H. rewrite !code_lowerChar in H.
    destruct (65 <=? code a) eqn:A1; destruct (code a <=? 90) eqn:A2;
      destruct (65 <=? code b) eqn:B1; destruct (code b <=? 90) eqn:B2;
      cbn [andb] in H;
      repeat match goal with
             | E : (_ <=? _) = true |- _ => apply Z.leb_le in E
             | E : (_ <=? _) = false |- _ => apply Z.leb_gt in E
             end;
      first [ left; apply code_eq_inv; lia
            | right; left; lia
            | right; right; lia ].
  - intros [->|[[U E]|[U E]]]; [reflexivity| |];
      apply code_eq_inv; rewrite !code_lowerChar;
      destruct (65 <=? code a) eqn:A1; destruct (code a <=? 90) eqn:A2;
      destruct (65 <=? code b) eqn:B1; destruct (code b <=? 90) eqn:B2;
      cbn [andb];
      repeat match goal with
             | E : (_ <=? _) = true |- _ => apply Z.leb_le in E
             | E : (_ <=? _) = false |- _ => apply Z.leb_gt in E
             end; lia.
Qed.

Lemma lower_caseVariant (s t : string) :
  lower s = lower t <-> caseVariant s t.
Proof.
  split.
  - revert t. induction s as [|a s IH]; intros [|b t] H; simpl in H;
      try discriminate H.
    + constructor.
    + injection H as Hc Hs.
      constructor; [apply lowerChar_sameLetter; assumption|auto].
  - induction 1 as [|a b s t L V IH]; simpl; [reflexivity|].
    apply lowerChar_sameLetter in L. rewrite L, IH. reflexivity.
Qed.

Lemma blankChar_isSpace (c : ascii) : blankChar c <-> isSpace c = true.
Proof.
  unfold blankChar, isSpace. split.
  - intros [<-|[<-|[<-|[<-|[<-|[<-|[]]]]]]]; reflexivity.
  - intro H.
    assert (E : code c = 32 \/ code c = 9 \/ code c = 10 \/ code c = 11
                \/ code c = 12 \/ code c = 13).
    { apply orb_true_iff in H. destruct H as [H|H].
      - apply andb_true_iff in H. destruct H as [H1 H2].
        apply Z.leb_le in H1, H2. lia.
      - apply Z.eqb_eq in H. auto. }
    cbn [In].
    destruct E as [E|[E|[E|[E|[E|E]]]]];
      [left|right; left|right; right; left|right; right; right; left
      |right; right; right; right; left
      |right; right; right; right; right; left];
      apply code_eq_inv; rewrite E; reflexivity.
Qed.

Lemma blanks_forallS (s : string) : blanks s <-> forallS isSpace s = true.
Proof.
  split.
  - induction 1 as [|c s B _ IH]; simpl; [reflexivity|].
    apply blankChar_isSpace in B. rewrite B, IH. reflexivity.
  - induction s as [|c s IH]; simpl; intro H; [constructor|].
    apply andb_true_iff in H. destruct H as [B H].
    constructor; [apply blankChar_isSpace; assumption|auto].
Qed.

Lemma sameLetter_solid (a b : ascii) :
  sameLetter a b -> isSpace b = false -> isSpace a = false.
Proof.
  unfold sameLetter, isSpace. intros [->|[[U E]|[U E]]] H; [assumption| |];
    apply orb_false_iff; split;
    [ apply andb_false_iff; right; apply Z.leb_gt; lia
    | apply Z.eqb_neq; lia
    | apply andb_false_iff; right; apply Z.leb_gt; lia
    | apply Z.eqb_neq; lia ].
Qed.

Lemma caseVariant_solid (s t : string) :
  caseVariant s t -> solid t = true -> solid s = true.
Proof.
  unfold solid. induction 1 as [|a b s t L V IH]; simpl; [auto|].
  intro H. apply andb_true_iff in H. destruct H as [B H].
  apply negb_true_iff in B. rewrite (sameLetter_solid a b L B). simpl. auto.
Qed.

Lemma caseVariant_nonempty (s t : string) :
  caseVariant s t -> t <> EmptyString -> s <> EmptyString.
Proof. intros V N. destruct V; [assumption|discriminate]. Qed.

(** ** Reversal and stripping *)

Lemma app_string_assoc (a b c : string) :
  ((a ++ b) ++ c)%string = (a ++ (b ++ c))%string.
Proof. induction a as [|x a IH]; simpl; [reflexivity|]. rewrite IH. reflexivity. Qed.

Lemma app_string_nil_r (a : string) : (a ++ "")%string = a.
Proof. induction a as [|x a IH]; simpl; [reflexivity|]. rewrite IH. reflexivity. Qed.

Lemma revOnto_append (s acc : string) :
  revOnto s acc = (rev s ++ acc)%string.
Proof.
  unfold rev. revert acc. induction s as [|c s IH]; intro acc; simpl;
    [reflexivity|].
  rewrite IH, (IH (String c EmptyString)), app_string_assoc. reflexivity.
Qed.

Lemma rev_cons (c : ascii) (s : string) :
  rev (String c s) = (rev s ++ String c EmptyString)%string.
Proof. unfold rev at 1. simpl. apply revOnto_append. Qed.

Lemma rev_append (a b : string) :
  rev (a ++ b) = (rev b ++ rev a)%string.
Proof.
  induction a as [|x a IH]; simpl.
  - change (rev EmptyString) with EmptyString.
    rewrite app_string_nil_r. reflexivity.
  - rewrite !rev_cons, IH, app_string_assoc. reflexivity.
Qed.

Lemma rev_rev (s : string) : rev (rev s) = s.
Proof.
  induction s as [|c s IH]; [reflexivity|].
  rewrite rev_cons, rev_append, IH. reflexivity.
Qed.

Lemma forallS_append (p : ascii -> bool) (a b : string) :
  forallS p (a ++ b) = forallS p a && forallS p b.
Proof.
  induction a as [|x a IH]; simpl; [reflexivity|].
  rewrite IH, andb_assoc. reflexivity.
Qed.

Lemma forallS_rev (p : ascii -> bool) (s : string) :
  forallS p (rev s) = forallS p s.
Proof.
  induction s as [|c s IH]; [reflexivity|].
  rewrite rev_cons, forallS_append, IH. simpl.
  rewrite andb_true_r. apply andb_comm.
Qed.

Lemma dropWhile_prefix (p : ascii -> bool) (pre s : string) :
  forallS p pre = true -> dropWhile p (pre ++ s) = dropWhile p s.
Proof.
  induction pre as [|c pre IH]; simpl; intro H; [reflexivity|].
  apply andb_true_iff in H. destruct H as [C H]. rewrite C. auto.
Qed.

Lemma dropWhile_keeps (p : ascii -> bool) (w s : string) :
  forallS (fun c => negb (p c)) w = true -> w <> EmptyString ->
  dropWhile p (w ++ s) = (w ++ s)%string.
Proof.
  destruct w as [|c w]; [congruence|]. simpl. intros H _.
  apply andb_true_iff in H. destruct H as [C _].
  apply negb_true_iff in C. rewrite C. reflexivity.
Qed.

Lemma dropWhile_split (p : ascii -> bool) (s : string) :
  exists pre, s = (pre ++ dropWhile p s)%string /\ forallS p pre = true.
Proof.
  induction s as [|c s [pre [E F]]]; simpl.
  - exists EmptyString. auto.
  - destruct (p c) eqn:C.
    + exists (String c pre). simpl. rewrite C, F, <- E. auto.
    + exists EmptyString. auto.
Qed.

(** What is stripped is a run at each end, and a word without such
    characters comes back whole. *)
Lemma strip_padded (p : ascii -> bool) (pre w post : string) :
  forallS p pre = true -> forallS p post = true ->
  forallS (fun c => negb (p c)) w = true -> w <> EmptyString ->
  strip p (pre ++ w ++ post) = w.
Proof.
  intros Hpre Hpost Hw Ne. unfold strip.
  rewrite (dropWhile_prefix p pre _ Hpre), (dropWhile_keeps p w post Hw Ne).
  rewrite rev_append, dropWhile_prefix by (rewrite forallS_rev; assumption).
  rewrite <- (app_string_nil_r (rev w)).
  rewrite dropWhile_keeps.
  - rewrite app_string_nil_r. apply rev_rev.
  - rewrite forallS_rev. assumption.
  - intro E. apply Ne. rewrite <- (rev_rev w), E. reflexivity.
Qed.

Lemma strip_split (p : ascii -> bool) (s : string) :
  exists pre post,
    s = (pre ++ strip p s ++ post)%string /\
    forallS p pre = true /\ forallS p post = true.
Proof.
  destruct (dropWhile_split p s) as [pre [E F]].
  destruct (dropWhile_split p (rev (dropWhile p s))) as [post [E' F']].
  exists pre, (rev post). refine (conj _ (conj F _)).
  - unfold strip. rewrite <- rev_append, <- E', rev_rev. assumption.
  - rewrite forallS_rev. assumption.
Qed.

(** ** The two readings of a command agree *)

Lemma names_EqualFold (command name : string) :
  solid name = true -> name <> EmptyString ->
  (names command name <-> EqualFold (TrimSpace command) name = true).
Proof.
  intros Sn Ne. unfold names, EqualFold, eqbFold, TrimSpace. split.
  - intros (pre & word & post & -> & Bpre & Bpost & V).
    apply blanks_forallS in Bpre, Bpost.
    rewrite strip_padded;
      [ apply String.eqb_eq, lower_caseVariant; assumption
      | assumption | assumption
      | exact (caseVariant_solid _ _ V Sn)
      | exact (caseVariant_nonempty _ _ V Ne) ].
  - intro H. apply String.eqb_eq, lower_caseVariant in H.
    destruct (strip_split isSpace command) as (pre & post & E & Fpre & Fpost).
    exists pre, (strip isSpace command), post.
    refine (conj E (conj _ (conj _ H))); apply blanks_forallS; assumption.
Qed.

Lemma names_other (command name other : string) :
  solid name = true -> name <> EmptyString ->
  names command name -> lower name <> lower other ->
  EqualFold (TrimSpace command) other = false.
Proof.
  intros Sn Ne H N. apply (names_EqualFold _ _ Sn Ne) in H.
  unfold EqualFold, eqbFold in *. apply String.eqb_eq in H.
  apply String.eqb_neq. rewrite H. assumption.
Qed.

(** Settles the side conditions on the three command names. *)
Ltac command_name :=
  first [ reflexivity | discriminate | (vm_compute; discriminate) ].

(** C8.  For every base name and every command, where a command names
    PauseService (ResumeService, DeleteService) when it is that word in any
    mix of upper and lower case, with blanks around it and nothing else:
    - a command that names PauseService or ResumeService targets exactly
      base_tcp and base_udp and takes the legacy single-service fallback;
    - a command that names DeleteService targets the bare base as well,
      ahead of base_tcp and base_udp, and never takes the fallback;
    - the fallback is taken for no other command. *)
Theorem forward_control_service_names (base command : string) :
  (names command "PauseService" \/ names command "ResumeService" ->
     buildForwardControlServiceNames base command
     = [(base ++ "_tcp")%string; (base ++ "_udp")%string] /\
     shouldTryLegacySingleService command = true) /\
  (names command "DeleteService" ->
     buildForwardControlServiceNames base command
     = [base; (base ++ "_tcp")%string; (base ++ "_udp")%string] /\
     shouldTryLegacySingleService command = false) /\
  (shouldTryLegacySingleService command = true ->
     names command "PauseService" \/ names command "ResumeService").
Proof.
  unfold buildForwardControlServiceNames, shouldTryLegacySingleService.
  refine (conj _ (conj _ _)).
  - intros [H|H].
    + rewrite (names_other _ "PauseService" "DeleteService")
        by (assumption || command_name).
      apply names_EqualFold in H; [|command_name|command_name].
      rewrite H. auto.
    + rewrite (names_other _ "ResumeService" "DeleteService")
        by (assumption || command_name).
      apply names_EqualFold in H; [|command_name|command_name].
      rewrite H, orb_true_r. auto.
  - intro H.
    rewrite (names_other _ "DeleteService" "PauseService")
      by (assumption || command_name).
    rewrite (names_other _ "DeleteService" "ResumeService")
      by (assumption || command_name).
    apply names_EqualFold in H; [|command_name|command_name].
    rewrite H. auto.
  - intro H. apply orb_true_iff in H.
    destruct H as [H|H]; apply names_EqualFold in H; auto; command_name.
Qed.

(** The cases of the Go tests. *)
Example control_names_pause_resume_test :
  buildForwardControlServiceNames "12_34_56" "PauseService"
  = ["12_34_56_tcp"; "12_34_56_udp"] /\
  buildForwardControlServiceNames "12_34_56" "ResumeService"
  = ["12_34_56_tcp"; "12_34_56_udp"].
Proof. vm_compute. split; reflexivity. Qed.

Example control_names_delete_test :
  buildForwardControlServiceNames "12_34_56" " DeleteService "
  = ["12_34_56"; "12_34_56_tcp"; "12_34_56_udp"].
Proof. vm_compute. reflexivity. Qed.

Example legacy_single_service_test :
  shouldTryLegacySingleService "PauseService" = true /\
  shouldTryLegacySingleService "resumeService" = true /\
  shouldTryLegacySingleService "DeleteService" = false.
Proof. vm_compute. repeat split; reflexivity. Qed.

(** Spells out that a padded word in mixed case names a command. *)
Ltac spelling pre word post :=
  exists pre, word, post;
  refine (conj eq_refl (conj _ (conj _ _)));
  repeat first
    [ apply BlanksEmpty
    | apply VariantEmpty
    | (apply BlanksChar; [cbv; tauto|])
    | (apply VariantChar;
       [first [ left; reflexivity
              | right; left; cbv; intuition discriminate
              | right; right; cbv; intuition discriminate ]|]) ].

Lemma forward_control_service_names_witness :
  (buildForwardControlServiceNames "12_34_56" "  deleteSERVICE "
   = ["12_34_56"; "12_34_56_tcp"; "12_34_56_udp"] /\
   shouldTryLegacySingleService "  deleteSERVICE " = false) /\
  (buildForwardControlServiceNames "12_34_56" "resumeService"
   = ["12_34_56_tcp"; "12_34_56_udp"] /\
   shouldTryLegacySingleService "resumeService" = true).
Proof.
  split.
  - apply (forward_control_service_names "12_34_56" "  deleteSERVICE ").
    spelling "  " "deleteSERVICE" " ".
  - apply (forward_control_service_names "12_34_56" "resumeService").
    right. spelling "" "resumeService" "".
Defined.

End ForwardControlFacts.


(* ===================================================================== *)
(** * Facts about the IPv4 pattern *)
(* ===================================================================== *)

Module DottedQuadFacts.

Import Text SQLiteConfig DottedQuad.
Local Open Scope list_scope.

(** ** The matcher decides the language *)

Lemma lang_ReNone (w : string) : ~ lang ReNone w.
Proof. intro H. inversion H. Qed.

Lemma lang_ReEps (w : string) : lang ReEps w -> w = EmptyString.
Proof. intro H. inversion H. reflexivity. Qed.

Lemma append_empty_r (u : string) : (u ++ "")%string = u.
Proof. induction u as [|c u IH]; simpl; [reflexivity|]. rewrite IH. reflexivity. Qed.

Lemma lang_ReCat_inv (r s : regex) (w : string) :
  lang (ReCat r s) w ->
  exists u v, w = (u ++ v)%string /\ lang r u /\ lang s v.
Proof. intro H. inversion H; subst. eauto. Qed.

Lemma lang_ReAlt_inv (r s : regex) (w : string) :
  lang (ReAlt r s) w -> lang r w \/ lang s w.
Proof. intro H. inversion H; subst; auto. Qed.

Lemma lang_ReOpt_inv (r : regex) (w : string) :
  lang (ReOpt r) w -> w = EmptyString \/ lang r w.
Proof. intro H. inversion H; subst; auto. Qed.

Lemma lang_ReSet_inv (p : ascii -> bool) (w : string) :
  lang (ReSet p) w -> exists c, w = String c EmptyString /\ p c = true.
Proof. intro H. inversion H; subst. eauto. Qed.

Lemma lang_cat (r s : regex) (w : string) :
  lang (cat r s) w <-> lang (ReCat r s) w.
Proof.
  split.
  - intro H.
    destruct r; try (exfalso; exact (lang_ReNone _ H));
      try (destruct s; simpl in H;
           try (exfalso; exact (lang_ReNone _ H)); try exact H;
           change w with (EmptyString ++ w)%string;
           (apply LangCat; [constructor|exact H])).
  - intro H. apply lang_ReCat_inv in H. destruct H as [u [v [-> [Hr Hs]]]].
    destruct r; try (exfalso; exact (lang_ReNone _ Hr));
      destruct s; try (exfalso; exact (lang_ReNone _ Hs)); simpl;
      try (apply LangCat; assumption);
      apply lang_ReEps in Hr; subst u; simpl; assumption.
Qed.

Lemma lang_alt (r s : regex) (w : string) :
  lang (alt r s) w <-> lang (ReAlt r s) w.
Proof.
  split.
  - intro H.
    destruct r; simpl in H;
      try (apply LangAltR; exact H);
      destruct s; simpl in H; try exact H; try (apply LangAltL; exact H).
  - intro H. apply lang_ReAlt_inv in H. destruct H as [Hr|Hs].
    + destruct r; try (exfalso; exact (lang_ReNone _ Hr));
        destruct s; simpl; try assumption; apply LangAltL; assumption.
    + destruct s; try (exfalso; exact (lang_ReNone _ Hs));
        destruct r; simpl; try assumption; apply LangAltR; assumption.
Qed.

Lemma append_is_empty (u v : string) :
  (u ++ v)%string = EmptyString -> u = EmptyString /\ v = EmptyString.
Proof. destruct u; simpl; intro H; [auto|discriminate H]. Qed.

Lemma nullable_lang (r : regex) : nullable r = true <-> lang r EmptyString.
Proof.
  induction r as [| |p|r IHr s IHs|r IHr s IHs|r IHr]; simpl.
  - split; [discriminate|]. intro H. inversion H.
  - split; [constructor|reflexivity].
  - split; [discriminate|]. intro H. inversion H.
  - rewrite andb_true_iff, IHr, IHs. split.
    + intros [Hr Hs]. change EmptyString with (EmptyString ++ EmptyString)%string.
      apply LangCat; assumption.
    + intro H. apply lang_ReCat_inv in H. destruct H as [u [v [E [Hr Hs]]]].
      symmetry in E. destruct (append_is_empty u v E) as [-> ->]. auto.
  - rewrite orb_true_iff, IHr, IHs. split.
    + intros [H|H]; [apply LangAltL|apply LangAltR]; assumption.
    + apply lang_ReAlt_inv.
  - split; [constructor|reflexivity].
Qed.

Lemma deriv_lang (r : regex) :
  forall (c : ascii) (w : string),
    lang (deriv c r) w <-> lang r (String c w).
Proof.
  induction r as [| |p|r IHr s IHs|r IHr s IHs|r IHr]; intros c w; simpl.
  - split; intro H; inversion H.
  - split; intro H; inversion H.
  - destruct (p c) eqn:P; split; intro H.
    + apply lang_ReEps in H. subst w. constructor. assumption.
    + apply lang_ReSet_inv in H. destruct H as [c' [E _]].
      injection E as _ ->. constructor.
    + inversion H.
    + apply lang_ReSet_inv in H. destruct H as [c' [E P']].
      injection E as <- _. congruence.
  - rewrite lang_alt. split.
    + intro H. apply lang_ReAlt_inv in H. destruct H as [Hl|Hl].
      * apply lang_cat, lang_ReCat_inv in Hl.
        destruct Hl as [u [v [-> [Hr Hs]]]].
        apply IHr in Hr.
        change (String c (u ++ v)) with (String c u ++ v)%string.
        apply LangCat; assumption.
      * destruct (nullable r) eqn:Nr; [|inversion Hl].
        apply IHs in Hl. apply nullable_lang in Nr.
        change (String c w) with (EmptyString ++ String c w)%string.
        apply LangCat; assumption.
    + intro H. apply lang_ReCat_inv in H. destruct H as [u [v [E [Hr Hs]]]].
      destruct u as [|c' u].
      * simpl in E. subst v. apply LangAltR.
        apply nullable_lang in Hr. rewrite Hr. apply IHs. assumption.
      * simpl in E. injection E as -> ->. apply LangAltL. apply lang_cat.
        apply LangCat; [apply IHr|]; assumption.
  - rewrite lang_alt. split.
    + intro H. apply lang_ReAlt_inv in H. destruct H as [H|H];
        [apply LangAltL; apply IHr|apply LangAltR; apply IHs]; assumption.
    + intro H. apply lang_ReAlt_inv in H. destruct H as [H|H];
        [apply LangAltL; apply IHr|apply LangAltR; apply IHs]; assumption.
  - split.
    + intro H. apply LangOptSome. apply IHr. assumption.
    + intro H. apply lang_ReOpt_inv in H. destruct H as [E|H];
        [discriminate E|]. apply IHr. assumption.
Qed.

Lemma matches_lang (w : string) :
  forall r, matches r w = true <-> lang r w.
Proof.
  induction w as [|c w IH]; intro r; simpl.
  - apply nullable_lang.
  - rewrite IH. apply deriv_lang.
Qed.

(** ** One octet *)

Lemma code_inj (a b : ascii) : code a = code b -> a = b.
Proof.
  unfold code. intro H. apply N2Z.inj in H.
  rewrite <- (ascii_N_embedding a), <- (ascii_N_embedding b), H. reflexivity.
Qed.

Lemma lit_inv (c x : ascii) (w : string) :
  lang (lit c) w -> w = String c EmptyString.
Proof.
  intro H. apply lang_ReSet_inv in H. destruct H as [y [-> E]].
  apply Ascii.eqb_eq in E. subst y. reflexivity.
Qed.

Lemma range_inv (lo hi : ascii) (w : string) :
  lang (range lo hi) w ->
  exists c, w = String c EmptyString /\ code lo <= code c <= code hi.
Proof.
  intro H. apply lang_ReSet_inv in H. destruct H as [c [-> E]].
  apply andb_true_iff in E. rewrite !Z.leb_le in E. eauto.
Qed.

Lemma lang_lit (c : ascii) : lang (lit c) (String c EmptyString).
Proof. apply LangSet. apply Ascii.eqb_refl. Qed.

Lemma lang_range (lo hi c : ascii) :
  code lo <= code c <= code hi -> lang (range lo hi) (String c EmptyString).
Proof.
  intro H. apply LangSet. apply andb_true_iff. rewrite !Z.leb_le. assumption.
Qed.

Lemma isDigit_code (c : ascii) : isDigit c = true <-> 48 <= code c <= 57.
Proof. unfold isDigit. rewrite andb_true_iff, !Z.leb_le. reflexivity. Qed.

Ltac octet_chars :=
  repeat match goal with
  | H : lang (ReCat _ _) _ |- _ =>
      apply lang_ReCat_inv in H; destruct H as [? [? [-> [? ?]]]]
  | H : lang (lit _) _ |- _ => apply (lit_inv _ "0") in H; subst
  | H : lang (range _ _) _ |- _ =>
      apply range_inv in H; destruct H as [? [-> ?]]
  | H : lang (ReOpt _) _ |- _ =>
      apply lang_ReOpt_inv in H; destruct H as [->|H]
  end.

Lemma octet_sound (o : string) : lang octet o -> octetNumeral o.
Proof.
  unfold octet. cbn [seqRe]. intro H.
  apply lang_ReAlt_inv in H. destruct H as [H|H];
    [|apply lang_ReAlt_inv in H; destruct H as [H|H]];
    octet_chars; unfold octetNumeral; cbn [append forallS String.length
      decimalValue];
    change (code "0") with 48 in *; change (code "1") with 49 in *;
    change (code "2") with 50 in *; change (code "4") with 52 in *;
    change (code "5") with 53 in *; change (code "9") with 57 in *;
    rewrite ?andb_true_r, ?andb_true_iff, ?isDigit_code;
    change (code "2") with 50 in *; change (code "5") with 53 in *;
    repeat split; lia.
Qed.

Lemma octet_complete (o : string) : octetNumeral o -> lang octet o.
Proof.
  unfold octetNumeral. intros [Dg [[L1 L3] V]].
  destruct o as [|c1 [|c2 [|c3 [|c4 o]]]]; cbn [String.length] in *;
    try lia; cbn [forallS decimalValue] in *;
    rewrite ?andb_true_r, ?andb_true_iff, ?isDigit_code in Dg.
  - (* one digit *)
    unfold octet. apply LangAltR, LangAltR. cbn [seqRe].
    change (String c1 "") with ("" ++ (String c1 "" ++ ""))%string.
    apply LangCat; [apply LangOptNone|].
    apply LangCat; [apply lang_range; exact Dg|apply LangOptNone].
  - (* two digits *)
    destruct Dg as [D1 D2].
    unfold octet. apply LangAltR, LangAltR. cbn [seqRe].
    change (String c1 (String c2 ""))
      with ("" ++ (String c1 "" ++ String c2 ""))%string.
    apply LangCat; [apply LangOptNone|].
    apply LangCat; [apply lang_range; exact D1|].
    apply LangOptSome, lang_range. exact D2.
  - (* three digits *)
    destruct Dg as [D1 [D2 D3]].
    change (String c1 (String c2 (String c3 "")))
      with (String c1 "" ++ (String c2 "" ++ String c3 ""))%string.
    unfold octet. cbn [seqRe].
    destruct (Z_le_gt_dec (code c1) 49) as [Lo|Hi].
    + apply LangAltR, LangAltR.
      apply LangCat; [apply LangOptSome, lang_range; change (code "0") with 48;
                      change (code "1") with 49; lia|].
      apply LangCat; [apply lang_range; exact D2|].
      apply LangOptSome, lang_range. exact D3.
    + assert (E1 : c1 = "2"%char) by (apply code_inj; change (code "2") with 50; lia).
      subst c1. change (code "2") with 50 in V.
      destruct (Z_le_gt_dec (code c2) 52) as [Lo2|Hi2].
      * apply LangAltR, LangAltL.
        apply LangCat; [apply lang_lit|].
        apply LangCat; apply lang_range;
          [change (code "0") with 48; change (code "4") with 52; lia|exact D3].
      * assert (E2 : c2 = "5"%char)
          by (apply code_inj; change (code "5") with 53; lia).
        subst c2. change (code "5") with 53 in V.
        apply LangAltL.
        apply LangCat; [apply lang_lit|].
        apply LangCat; [apply lang_lit|].
        apply lang_range. change (code "0") with 48. change (code "5") with 53.
        lia.
Qed.

(** ** The whole pattern *)

Lemma ipv4_lang (s : string) : lang ipv4 s <-> dottedQuad s.
Proof.
  unfold ipv4, dottedQuad. cbn [seqRe]. split.
  - intro H. octet_chars.
    match goal with
    | Ha : lang octet ?a, Hb : lang octet ?b, Hc : lang octet ?c,
      Hd : lang octet ?d |- _ =>
        exists a, b, c, d; split; [reflexivity|];
        repeat split; apply octet_sound; assumption
    end.
  - intros [a [b [c [d [-> [Ha [Hb [Hc Hd]]]]]]]].
    repeat (apply LangCat; [try apply lang_lit; apply octet_complete;
                            assumption|]); try apply lang_lit.
    apply octet_complete. assumption.
Qed.

(** X4.  The pattern that [backfillNodeDualStackColumns] compiles accepts
    exactly the dotted quads: four numerals of one to three decimal digits,
    each denoting at most 255, separated by single dots.  Leading zeros are
    accepted (010.001.0.00), signs, blanks, ports and a fifth group are
    not. *)
Theorem ipv4_pattern_dotted_quad (s : string) :
  matches ipv4 s = true <-> dottedQuad s.
Proof. rewrite matches_lang. apply ipv4_lang. Qed.

(** X5.  Whatever the backfill writes is well formed for its column: a
    value written to server_ip_v4 is a dotted quad and is the trimmed
    server_ip of the row; a value written to server_ip_v6 is the trimmed
    server_ip, is not a dotted quad and holds two colons or more.  Nothing
    else about a v6 value is checked. *)
Theorem backfill_values_well_formed (r : NodeRow) :
  (forall v, rowUpdate r = UpdV4 v ->
     dottedQuad v /\ exists ip, server_ip r = Some ip /\ v = trim ip) /\
  (forall v, rowUpdate r = UpdV6 v ->
     ~ dottedQuad v /\ 2 <= countS isColon v /\
     exists ip, server_ip r = Some ip /\ v = trim ip).
Proof.
  unfold rowUpdate. destruct (server_ip r) as [ip|]; [|split; discriminate].
  destruct (isBlank ip); [split; discriminate|].
  destruct (notBlank (server_ip_v4 r) || notBlank (server_ip_v6 r));
    [split; discriminate|].
  destruct (matches ipv4 (trim ip)) eqn:M.
  - split; [|discriminate]. intros v E. injection E as <-.
    split; [apply ipv4_pattern_dotted_quad; assumption|eauto].
  - destruct (2 <=? countS isColon (trim ip)) eqn:C; split; try discriminate.
    intros v E. injection E as <-. split; [|split; [|eauto]].
    + intro Q. apply ipv4_pattern_dotted_quad in Q. congruence.
    + apply Z.leb_le. assumption.
Qed.

Example dotted_quad_samples :
  matches ipv4 "010.001.0.00" = true /\
  matches ipv4 "255.255.255.255" = true /\
  matches ipv4 "256.1.1.1" = false /\
  matches ipv4 "1.2.3" = false /\
  matches ipv4 "1.2.3.4.5" = false /\
  matches ipv4 "1.2.3.4:80" = false /\
  matches ipv4 "+1.2.3.4" = false.
Proof. vm_compute. repeat split; reflexivity. Qed.

End DottedQuadFacts.


(* ===================================================================== *)
(** * More facts about the flow upload loop *)
(* ===================================================================== *)

Module FlowUploadFacts.

Import Text Store Handler Accounts.
Local Open Scope list_scope.

Lemma Split_not_nil (s : string) (sep : ascii) : Split s sep <> [].
Proof.
  destruct s as [|c s]; simpl; [discriminate|].
  destruct (Ascii.eqb c sep); [discriminate|].
  destruct (Split s sep); discriminate.
Qed.

(** strings.Split yields one part more than there are separators. *)
Lemma Split_length (s : string) (sep : ascii) :
  Z.of_nat (List.length (Split s sep))
  = 1 + countS (fun c => Ascii.eqb c sep) s.
Proof.
  induction s as [|c s IH]; [reflexivity|].
  cbn [Split countS]. destruct (Ascii.eqb c sep).
  - cbn [List.length]. rewrite Nat2Z.inj_succ, IH. lia.
  - pose proof (Split_not_nil s sep) as NE.
    destruct (Split s sep) as [|part parts]; [congruence|].
    cbn [List.length] in *. lia.
Qed.

Lemma Split_plain_then (a rest : string) :
  plainPart a = true ->
  Split (a ++ String "_" rest) "_" = a :: Split rest "_".
Proof.
  unfold plainPart, isSeparator.
  induction a as [|c a IH]; intro H; [reflexivity|].
  simpl in H. apply andb_true_iff in H. destruct H as [Hc Ha].
  apply negb_true_iff in Hc.
  change (String c a ++ String "_" rest)%string
    with (String c (a ++ String "_" rest)).
  cbn [Split]. rewrite Hc, (IH Ha). reflexivity.
Qed.

Lemma Split_plain (a : string) : plainPart a = true -> Split a "_" = [a].
Proof.
  unfold plainPart, isSeparator.
  induction a as [|c a IH]; intro H; [reflexivity|].
  simpl in H. apply andb_true_iff in H. destruct H as [Hc Ha].
  apply negb_true_iff in Hc. cbn [Split]. rewrite Hc, (IH Ha). reflexivity.
Qed.

Lemma countS_append (p : ascii -> bool) (a b : string) :
  countS p (a ++ b) = countS p a + countS p b.
Proof.
  induction a as [|c a IH]; simpl; [reflexivity|]. rewrite IH. lia.
Qed.

Lemma two_separators_not_web_api (a b rest : string) :
  String.eqb (a ++ String "_" (b ++ String "_" rest)) "web_api" = false.
Proof.
  apply String.eqb_neq. intro E.
  apply (f_equal (countS isSeparator)) in E.
  change (countS isSeparator "web_api") with 1 in E.
  rewrite countS_append in E. cbn [countS] in E.
  rewrite countS_append in E. cbn [countS] in E.
  change (isSeparator "_") with true in E. cbv iota in E.
  pose proof (SQLiteConfigFacts.countS_nonneg isSeparator a).
  pose proof (SQLiteConfigFacts.countS_nonneg isSeparator b).
  pose proof (SQLiteConfigFacts.countS_nonneg isSeparator rest).
  lia.
Qed.

Section Loop.

Variable AddFlow : Z -> Z -> Z -> Z -> Z -> Repository -> Repository.
Variable TrimSpace : string -> string.
Variable unmarshalWrap : string -> option flowWrap.
Variable unmarshalItems : string -> option (list flowItem).
Variable aesDecrypt : string -> string -> option string.

(** X6.  The upload endpoint touches the store through [AddFlow] and
    nothing else: a property of the store that every [AddFlow] call keeps is
    kept by a whole request, whatever its secret, its body and the number
    of items in it. *)
Theorem flowUpload_keeps_invariant (P : Repository -> Prop)
    (repo : Repository) (r : Request) :
  (forall f u t d up repo0, P repo0 -> P (AddFlow f u t d up repo0)) ->
  P repo ->
  P (fst (flowUpload AddFlow TrimSpace unmarshalWrap unmarshalItems
            aesDecrypt repo r)).
Proof.
  intros Keep H0.
  assert (Item : forall repo0 item,
             P repo0 -> P (flowUploadItem AddFlow repo0 item)).
  { intros repo0 item H. unfold flowUploadItem.
    destruct ((Z.of_nat (List.length (Split (N item) "_")) <? 3)
              || String.eqb (N item) "web_api"); [assumption|].
    destruct (ParseInt (nth_part (Split (N item) "_") 0)); [|assumption].
    destruct (ParseInt (nth_part (Split (N item) "_") 1)); [|assumption].
    destruct (ParseInt (nth_part (Split (N item) "_") 2)); [|assumption].
    apply Keep. assumption. }
  assert (Items : forall items repo0,
             P repo0 -> P (fold_left (flowUploadItem AddFlow) items repo0)).
  { induction items as [|item items IH]; intros repo0 H; simpl;
      [assumption|]. apply IH, Item. assumption. }
  unfold flowUpload.
  destruct (negb (NodeExistsBySecret repo (query_secret r))); cbn [fst];
    [assumption|].
  destruct (readAndDecryptFlowBody TrimSpace unmarshalWrap aesDecrypt
              (body r) (query_secret r)) as [raw|]; [|assumption].
  destruct (negb (String.eqb (TrimSpace raw) "")); [|assumption].
  destruct (unmarshalItems raw) as [items|]; [|assumption].
  apply Items. assumption.
Qed.

(** X7.  An item whose name holds fewer than two underscores is never
    credited, whatever its counters: splitting gives fewer than three
    parts.  This covers web_api, which the loop also names explicitly. *)
Theorem flowUpload_needs_two_separators (repo : Repository) (item : flowItem) :
  countS isSeparator (N item) < 2 ->
  flowUploadItem AddFlow repo item = repo.
Proof.
  intro H. unfold flowUploadItem.
  replace (Z.of_nat (List.length (Split (N item) "_")) <? 3) with true;
    [reflexivity|].
  symmetry. apply Z.ltb_lt. rewrite Split_length.
  change (fun c : ascii => Ascii.eqb c "_") with isSeparator. lia.
Qed.

(** X8.  Only the first three parts of a name count: an item named
    a_b_c_rest is handled exactly as the item named a_b_c with the same
    counters, so the flows reported under base_tcp and base_udp go to the
    forward, user and user-tunnel of the bare base. *)
Theorem flowUpload_reads_three_parts
    (repo : Repository) (a b c rest : string) (u d : Z) :
  plainPart a = true -> plainPart b = true -> plainPart c = true ->
  flowUploadItem AddFlow repo
    (mkFlowItem (a ++ String "_" (b ++ String "_" (c ++ String "_" rest))) u d)
  = flowUploadItem AddFlow repo
      (mkFlowItem (a ++ String "_" (b ++ String "_" c)) u d).
Proof.
  intros Pa Pb Pc. unfold flowUploadItem. cbn [N U D].
  rewrite !two_separators_not_web_api.
  rewrite !(Split_plain_then a _ Pa), !(Split_plain_then b _ Pb),
    (Split_plain_then c _ Pc), (Split_plain c Pc).
  cbn [List.length nth_part nth].
  replace (Z.of_nat (S (S (S (List.length (Split rest "_"))))) <? 3)
    with false by (symmetry; apply Z.ltb_ge; lia).
  reflexivity.
Qed.

End Loop.

Lemma flowUpload_keeps_invariant_witness :
  nodes (fst (flowUpload countingAddFlow (fun s => s) (fun _ => None)
                sampleItems (fun _ _ => None) flowRepo
                (mkRequest "flow-node-secret" (Some "forward"))))
  = [flowNode].
Proof.
  apply (flowUpload_keeps_invariant countingAddFlow (fun s => s)
           (fun _ => None) sampleItems (fun _ _ => None)
           (fun repo => nodes repo = [flowNode])).
  - intros f u t d up repo0 H. exact H.
  - reflexivity.
Defined.

Lemma flowUpload_needs_two_separators_witness :
  flowUploadItem wipingAddFlow flowRepo (mkFlowItem "web_api" 5 5) = flowRepo.
Proof.
  apply (flowUpload_needs_two_separators wipingAddFlow flowRepo
           (mkFlowItem "web_api" 5 5)).
  vm_compute. reflexivity.
Defined.

Lemma flowUpload_reads_three_parts_witness :
  flowUploadItem wipingAddFlow flowRepo (mkFlowItem "12_34_56_tcp" 7 9)
  = flowUploadItem wipingAddFlow flowRepo (mkFlowItem "12_34_56" 7 9).
Proof.
  apply (flowUpload_reads_three_parts wipingAddFlow flowRepo
           "12" "34" "56" "tcp" 7 9); reflexivity.
Defined.

End FlowUploadFacts.


(* ===================================================================== *)
(** * Facts about login, password change and configuration updates *)
(* ===================================================================== *)

Module AccountsFacts.

Import Text Store Handler Accounts.
Local Open Scope list_scope.

(** ** parseUserID *)

Lemma unsignedDecimal_nonneg (s : string) (v : Z) :
  unsignedDecimal s = Some v -> 0 <= v.
Proof. intro H. apply (HandlerFacts.unsignedDecimal_digits s v H). Qed.

(** How strconv.ParseInt read its argument when it succeeded. *)
Lemma ParseInt_shape (s : string) (v : Z) :
  ParseInt s = Some v ->
  - 2 ^ 63 <= v <= 2 ^ 63 - 1 /\
  ((exists ds, s = String "+" ds /\ unsignedDecimal ds = Some v)
   \/ (exists ds w, s = String "-" ds /\ unsignedDecimal ds = Some w /\ v = - w)
   \/ unsignedDecimal s = Some v).
Proof.
  unfold ParseInt. intro H.
  assert (G : forall o : option Z,
             match o with
             | Some v0 => if (- 2 ^ 63 <=? v0) && (v0 <=? 2 ^ 63 - 1)
                          then Some v0 else None
             | None => None
             end = Some v ->
             o = Some v /\ - 2 ^ 63 <= v <= 2 ^ 63 - 1).
  { intros [v0|] E; [|discriminate E].
    destruct ((- 2 ^ 63 <=? v0) && (v0 <=? 2 ^ 63 - 1)) eqn:B;
      [|discriminate E].
    injection E as <-. apply andb_true_iff in B. rewrite !Z.leb_le in B. auto. }
  apply G in H. destruct H as [H B]. split; [exact B|]. clear G B.
  destruct s as [|c s']; [right; right; exact H|].
  destruct c as [[] [] [] [] [] [] [] []];
    try (right; right; exact H).
  - left. exists s'. auto.
  - right. left. destruct (unsignedDecimal s') as [w|] eqn:U;
      [|discriminate H]. injection H as <-. exists s', w. auto.
Qed.

(** X9.  parseUserID accepts exactly the decimal numerals of the ids 1 to
    2^63 - 1, with leading zeros and one leading plus sign allowed: the
    empty text, zero, negative numbers, blanks and anything past int64 are
    errors.  Several texts therefore name the same id (7, +7, 007). *)
Theorem parseUserID_accepts (sub : string) (id : Z) :
  parseUserID sub = Some id <->
  1 <= id <= 2 ^ 63 - 1 /\
  exists ds, (sub = ds \/ sub = String "+" ds) /\ unsignedDecimal ds = Some id.
Proof.
  unfold parseUserID. split.
  - destruct (ParseInt sub) as [v|] eqn:P; [|discriminate].
    destruct (Z.leb_spec v 0) as [Le|Gt]; [discriminate|].
    intro E. injection E as <-.
    apply ParseInt_shape in P. destruct P as [B [[ds [-> U]]|[[ds [w [-> [U ->]]]]|U]]].
    + split; [lia|]. exists ds. auto.
    + apply unsignedDecimal_nonneg in U. lia.
    + split; [lia|]. exists sub. auto.
  - intros [B [ds [[->| ->] U]]].
    + rewrite (HandlerFacts.ParseInt_unsigned ds id U) by lia.
      destruct (Z.leb_spec id 0); [lia|reflexivity].
    + unfold ParseInt. rewrite U.
      replace ((- 2 ^ 63 <=? id) && (id <=? 2 ^ 63 - 1)) with true
        by (symmetry; apply andb_true_iff; rewrite !Z.leb_le; lia).
      destruct (Z.leb_spec id 0); [lia|reflexivity].
Qed.

Example parseUserID_samples :
  parseUserID "7" = Some 7 /\ parseUserID "+7" = Some 7 /\
  parseUserID "007" = Some 7 /\ parseUserID "0" = None /\
  parseUserID "-7" = None /\ parseUserID "" = None /\
  parseUserID " 7" = None /\ parseUserID "7.0" = None /\
  parseUserID "9223372036854775807" = Some 9223372036854775807 /\
  parseUserID "9223372036854775808" = None.
Proof. vm_compute. repeat split; reflexivity. Qed.

(** ** login *)

Section HandlersFacts.

Variable TrimSpace : string -> string.
Variable EqualFold : string -> string -> bool.
Variable MD5 : string -> string.
Variable GenerateToken : Z -> string -> Z -> string -> string + string.
Variable S : Type.
Variable GetConfigByName : S -> string -> lookup Config.
Variable GetUserByUsername : S -> string -> lookup User.
Variable GetUserByID : S -> Z -> lookup User.
Variable UsernameExistsExceptID : S -> string -> Z -> string + bool.
Variable UpdateUserNameAndPassword :
  Z -> string -> string -> Z -> S -> S * option string.
Variable UpsertConfig : string -> string -> Z -> S -> S * option string.
Variable jwtSecret : string.

Let loginWith (byName : S -> string -> lookup User)
  : S -> string -> option loginRequest -> R loginData :=
  login TrimSpace EqualFold MD5 GenerateToken S GetConfigByName byName
    jwtSecret.

(** X10.  login hands out a token only for a POST whose body decoded, with
    a user name and a password that are not blank, for a user row found
    under exactly the name sent, whose stored digest equals the MD5 of the
    password sent and whose status is not 0; the token is the one generated
    for that row's id, name and role, and the reply carries that name and
    role. *)
Theorem login_token_sound (s : S) (method : string)
    (body : option loginRequest) (data : loginData) :
  loginWith GetUserByUsername s method body = OK data ->
  exists req user,
    method = "POST" /\ body = Some req /\
    TrimSpace (Username req) <> "" /\ TrimSpace (Password req) <> "" /\
    GetUserByUsername s (Username req) = Found user /\
    Pwd user = MD5 (Password req) /\ Status user <> 0 /\
    GenerateToken (ID user) (UserName user) (RoleID user) jwtSecret
    = inl (login_token data) /\
    login_name data = UserName user /\ login_role_id data = RoleID user.
Proof.
  unfold loginWith, login, blank, MethodPost.
  destruct (String.eqb_spec method "POST") as [Em|Em]; [|discriminate].
  destruct body as [req|]; [|discriminate].
  destruct (String.eqb_spec (TrimSpace (Username req)) "") as [Eu|Eu];
    [discriminate|].
  destruct (String.eqb_spec (TrimSpace (Password req)) "") as [Ep|Ep];
    [discriminate|].
  destruct (captchaEnabled EqualFold S GetConfigByName s) as [err|enabled];
    [discriminate|].
  destruct (enabled && String.eqb (TrimSpace (CaptchaID req)) "");
    [discriminate|].
  destruct (GetUserByUsername s (Username req)) as [user| |err] eqn:G;
    try discriminate.
  destruct (String.eqb_spec (Pwd user) (MD5 (Password req))) as [Eh|Eh];
    [|discriminate].
  destruct (Z.eqb_spec (Status user) 0) as [Es|Es]; [discriminate|].
  destruct (GenerateToken (ID user) (UserName user) (RoleID user) jwtSecret)
    as [tok|err] eqn:T; [|discriminate].
  intro H. injection H as <-. exists req, user. cbn. repeat split; auto.
Qed.

(** X11.  login reads of the captcha id only whether it is blank: two
    bodies with the same user name and password whose captcha ids are both
    blank or both not blank get the same reply from the same store.  With
    captcha enabled any non-blank captcha id passes; the id is not checked
    against anything. *)
Theorem login_captcha_presence_only (s : S) (method : string)
    (req req' : loginRequest) :
  Username req = Username req' -> Password req = Password req' ->
  blank TrimSpace (CaptchaID req) = blank TrimSpace (CaptchaID req') ->
  loginWith GetUserByUsername s method (Some req)
  = loginWith GetUserByUsername s method (Some req').
Proof.
  intros Eu Ep Ec. unfold loginWith, login. rewrite Eu, Ep, Ec. reflexivity.
Qed.

(** X12.  A wrong password is answered exactly as an unknown account: when
    the stored digest differs from the MD5 of the password sent, the reply
    is the one the same request would get if no user row existed at all.
    Neither the existence of the account nor its disabled status shows
    without the password. *)
Theorem login_wrong_password_as_unknown (s : S) (method : string)
    (req : loginRequest) (user : User) :
  GetUserByUsername s (Username req) = Found user ->
  Pwd user <> MD5 (Password req) ->
  loginWith GetUserByUsername s method (Some req)
  = loginWith (fun _ _ => Missing) s method (Some req).
Proof.
  intros G Ne. unfold loginWith, login. rewrite G.
  apply String.eqb_neq in Ne. rewrite Ne. reflexivity.
Qed.

(** ** updatePassword *)

Let changePassword : S -> string -> option string
                     -> option changePasswordRequest -> Z -> S * R unit :=
  updatePassword TrimSpace MD5 S GetUserByID UsernameExistsExceptID
    UpdateUserNameAndPassword.

(** X13.  updatePassword writes at most once and only behind all its
    guards: either the store is returned as it was and the reply is not
    OKEmpty, or the claims name a valid user id, the four fields are not
    blank, the new password equals its confirmation, the user row exists,
    its digest equals the MD5 of the current password sent, no other user
    holds the new name, and the store is the one
    UpdateUserNameAndPassword(id, new name, MD5(new password), now) left;
    the reply is OKEmpty exactly when that call reported no error. *)
Theorem updatePassword_guarded (s s' : S) (method : string)
    (claims : option string) (body : option changePasswordRequest) (now : Z)
    (reply : R unit) :
  changePassword s method claims body now = (s', reply) ->
  (s' = s /\ reply <> OKEmpty)
  \/ exists sub id req user err,
       method = "POST" /\ claims = Some sub /\ parseUserID sub = Some id /\
       body = Some req /\
       blank TrimSpace (NewUsername req) = false /\
       blank TrimSpace (CurrentPassword req) = false /\
       blank TrimSpace (NewPassword req) = false /\
       blank TrimSpace (ConfirmPassword req) = false /\
       NewPassword req = ConfirmPassword req /\
       GetUserByID s id = Found user /\
       Pwd user = MD5 (CurrentPassword req) /\
       UsernameExistsExceptID s (NewUsername req) id = inr false /\
       UpdateUserNameAndPassword id (NewUsername req) (MD5 (NewPassword req))
         now s = (s', err) /\
       (err = None <-> reply = OKEmpty).
Proof.
  unfold changePassword, updatePassword, MethodPost.
  destruct (String.eqb_spec method "POST") as [Em|Em]; cbn [negb];
    [|intro H; injection H as <- <-; left; split; [reflexivity|discriminate]].
  destruct claims as [sub|];
    [|intro H; injection H as <- <-; left; split; [reflexivity|discriminate]].
  destruct (parseUserID sub) as [id|] eqn:Pid;
    [|intro H; injection H as <- <-; left; split; [reflexivity|discriminate]].
  destruct body as [req|];
    [|intro H; injection H as <- <-; left; split; [reflexivity|discriminate]].
  destruct (blank TrimSpace (NewUsername req)) eqn:B1;
    [intro H; injection H as <- <-; left; split; [reflexivity|discriminate]|].
  destruct (blank TrimSpace (CurrentPassword req)) eqn:B2;
    [intro H; injection H as <- <-; left; split; [reflexivity|discriminate]|].
  destruct (blank TrimSpace (NewPassword req)) eqn:B3;
    [intro H; injection H as <- <-; left; split; [reflexivity|discriminate]|].
  destruct (blank TrimSpace (ConfirmPassword req)) eqn:B4;
    [intro H; injection H as <- <-; left; split; [reflexivity|discriminate]|].
  destruct (String.eqb_spec (NewPassword req) (ConfirmPassword req))
    as [En|En]; cbn [negb];
    [|intro H; injection H as <- <-; left; split; [reflexivity|discriminate]].
  destruct (GetUserByID s id) as [user| |e] eqn:G;
    try (intro H; injection H as <- <-; left; split;
         [reflexivity|discriminate]).
  destruct (String.eqb_spec (Pwd user) (MD5 (CurrentPassword req)))
    as [Eh|Eh]; cbn [negb];
    [|intro H; injection H as <- <-; left; split; [reflexivity|discriminate]].
  destruct (UsernameExistsExceptID s (NewUsername req) id) as [e|[|]] eqn:X;
    try (intro H; injection H as <- <-; left; split;
         [reflexivity|discriminate]).
  destruct (UpdateUserNameAndPassword id (NewUsername req)
              (MD5 (NewPassword req)) now s) as [s1 [e|]] eqn:Up;
    intro H; injection H as <- <-; right;
    exists sub, id, req, user.
  - exists (Some e). repeat split; auto; discriminate.
  - exists None. repeat split; auto.
Qed.

(** ** updateConfigs *)

Let upsertAll : list (string * string) -> Z -> S -> S * option string :=
  upsertEntries TrimSpace S UpsertConfig.

Lemma upsertEntries_app (pre rest : list (string * string)) (now : Z) :
  forall s,
    upsertAll (pre ++ rest) now s
    = match upsertAll pre now s with
      | (s1, None) => upsertAll rest now s1
      | (s1, Some err) => (s1, Some err)
      end.
Proof.
  unfold upsertAll.
  induction pre as [|[k v] pre IH]; intro s; [reflexivity|].
  cbn [app upsertEntries].
  destruct (String.eqb (TrimSpace k) ""); [apply IH|].
  destruct (UpsertConfig (TrimSpace k) v now s) as [s1 [err|]];
    [reflexivity|apply IH].
Qed.

(** X14.  updateConfigs is not atomic.  When the entries the map yields
    first are all written and the next one, with a key that is not blank,
    fails, the handler replies Err(-2, the error) and returns the store
    with the earlier entries written; the entries after the failing one are
    never looked at. *)
Theorem updateConfigs_stops_at_first_failure
    (pre post : list (string * string)) (k v err : string) (now : Z)
    (s s1 s2 : S) :
  upsertAll pre now s = (s1, None) ->
  blank TrimSpace k = false ->
  UpsertConfig (TrimSpace k) v now s1 = (s2, Some err) ->
  updateConfigs TrimSpace S UpsertConfig s "POST"
    (Some (pre ++ (k, v) :: post)) now
  = (s2, Err (-2) err).
Proof.
  intros Hpre Hk Hfail. unfold updateConfigs, MethodPost. cbn [String.eqb negb].
  assert (E : upsertEntries TrimSpace S UpsertConfig (pre ++ (k, v) :: post)
                now s = (s2, Some err)).
  { fold upsertAll. rewrite upsertEntries_app, Hpre. unfold upsertAll.
    cbn [upsertEntries]. unfold blank in Hk. rewrite Hk, Hfail. reflexivity. }
  destruct (pre ++ (k, v) :: post) as [|e l] eqn:L.
  - destruct pre; discriminate L.
  - rewrite E. reflexivity.
Qed.

End HandlersFacts.

Lemma login_token_sound_witness :
  exists req user,
    "POST" = "POST" /\
    Some (mkLoginRequest "alice" "wonderland" "") = Some req /\
    Username req <> "" /\ Password req <> "" /\
    sampleByName sampleUsers (Username req) = Found user /\
    Pwd user = Text.rev (Password req) /\ Status user <> 0 /\
    sampleToken (ID user) (UserName user) (RoleID user) "secret"
    = inl "alice" /\
    "alice" = UserName user /\ 1 = RoleID user.
Proof.
  apply (login_token_sound (fun x => x) String.eqb Text.rev sampleToken
           (list User) (fun _ _ => Missing) sampleByName "secret" sampleUsers
           "POST" (Some (mkLoginRequest "alice" "wonderland" ""))
           (mkLoginData "alice" "alice" 1 false)).
  reflexivity.
Defined.

Lemma login_captcha_presence_only_witness :
  sampleLogin sampleUsers "POST"
    (Some (mkLoginRequest "alice" "wonderland" "captcha-1"))
  = sampleLogin sampleUsers "POST"
      (Some (mkLoginRequest "alice" "wonderland" "anything else")).
Proof.
  apply (login_captcha_presence_only (fun x => x) String.eqb Text.rev
           sampleToken (list User) (fun _ _ => Missing) sampleByName "secret"
           sampleUsers "POST"
           (mkLoginRequest "alice" "wonderland" "captcha-1")
           (mkLoginRequest "alice" "wonderland" "anything else"));
    reflexivity.
Defined.

Lemma login_wrong_password_as_unknown_witness :
  sampleLogin sampleUsers "POST" (Some (mkLoginRequest "bob" "guess" ""))
  = login (fun x => x) String.eqb Text.rev sampleToken (list User)
      (fun _ _ => Missing) (fun _ _ => Missing) "secret" sampleUsers "POST"
      (Some (mkLoginRequest "bob" "guess" "")).
Proof.
  apply (login_wrong_password_as_unknown (fun x => x) String.eqb Text.rev
           sampleToken (list User) (fun _ _ => Missing) sampleByName "secret"
           sampleUsers "POST" (mkLoginRequest "bob" "guess" "")
           (mkUser 3 "bob" (Text.rev "builder") 1 0)).
  - reflexivity.
  - discriminate.
Defined.

Lemma updatePassword_guarded_witness :
  (sampleUsers = sampleUsers /\ ErrDefault "当前密码错误" <> @OKEmpty unit)
  \/ exists sub id req user err,
       "POST" = "POST" /\ Some "2" = Some sub /\ parseUserID sub = Some id /\
       Some (mkChangePasswordRequest "alice2" "guess" "new" "new") = Some req /\
       blank (fun x => x) (NewUsername req) = false /\
       blank (fun x => x) (CurrentPassword req) = false /\
       blank (fun x => x) (NewPassword req) = false /\
       blank (fun x => x) (ConfirmPassword req) = false /\
       NewPassword req = ConfirmPassword req /\
       sampleByID sampleUsers id = Found user /\
       Pwd user = Text.rev (CurrentPassword req) /\
       sampleNameTaken sampleUsers (NewUsername req) id = inr false /\
       sampleUpdate id (NewUsername req) (Text.rev (NewPassword req)) 0
         sampleUsers = (sampleUsers, err) /\
       (err = None <-> ErrDefault "当前密码错误" = @OKEmpty unit).
Proof.
  apply (updatePassword_guarded (fun x => x) Text.rev (list User) sampleByID
           sampleNameTaken sampleUpdate sampleUsers sampleUsers "POST"
           (Some "2")
           (Some (mkChangePasswordRequest "alice2" "guess" "new" "new")) 0
           (ErrDefault "当前密码错误")).
  reflexivity.
Defined.

Lemma updateConfigs_stops_at_first_failure_witness :
  sampleUpdateConfigs [("site", "old")]
    (Some [("site", "new"); ("locked", "x"); ("title", "y")])
  = ([("site", "new")], Err (-2) "locked").
Proof.
  apply (updateConfigs_stops_at_first_failure (fun x => x)
           (list (string * string)) sampleUpsert [("site", "new")]
           [("title", "y")] "locked" "x" "locked" 0 [("site", "old")]
           [("site", "new")] [("site", "new")]); reflexivity.
Defined.

(** The account handlers run on the sample store: a login that succeeds, a
    disabled account, a password change that is refused and one that goes
    through and is visible to the next login. *)
Example account_handlers_samples :
  sampleLogin sampleUsers "POST"
    (Some (mkLoginRequest "alice" "wonderland" ""))
  = OK (mkLoginData "alice" "alice" 1 false)
  /\ sampleLogin sampleUsers "POST"
       (Some (mkLoginRequest "bob" "builder" ""))
     = ErrDefault "账号被停用"
  /\ sampleLogin sampleUsers "GET"
       (Some (mkLoginRequest "alice" "wonderland" ""))
     = ErrDefault "请求失败"
  /\ sampleChangePassword sampleUsers (Some "2")
       (Some (mkChangePasswordRequest "bob" "wonderland" "new" "new"))
     = (sampleUsers, ErrDefault "用户名已存在")
  /\ (let (s', reply) :=
        sampleChangePassword sampleUsers (Some "2")
          (Some (mkChangePasswordRequest "alice2" "wonderland" "new" "new"))
      in reply = OKEmpty
         /\ sampleLogin s' "POST" (Some (mkLoginRequest "alice2" "new" ""))
            = OK (mkLoginData "alice2" "alice2" 1 false)
         /\ sampleLogin s' "POST"
              (Some (mkLoginRequest "alice" "wonderland" ""))
            = ErrDefault "账号或密码错误").
Proof. vm_compute. repeat split. Qed.

End AccountsFacts.


